(** * Budget Tracker: currency conversion, summary and entry store

    A shallow embedding of the non-presentational logic of [src/App.jsx]
    (the first, multi-currency, version of the component): the conversion
    engine [convertCurrency], the summary aggregator [summary], and the
    form controller [handleSubmit], [handleEditEntry], [handleCancelEdit],
    [handleDeleteEntry], written as functions on an explicit application
    state.

    Modelling choices.
    - A JavaScript number is an IEEE 754 binary64 value: the instance
      [binary64] of the interface [JSNumber] is built on Rocq's primitive
      floats, which compute with exactly that arithmetic.  A second
      instance, [exact], is rational arithmetic with one undefined
      element; it is the meaning of "exact arithmetic" in the round-trip
      property.  Every definition is written once, over the interface.
    - The rate table is a plain object used as a map from currency codes
      to numbers: a [gmap string N].  Reading a property yields a number
      or [undefined], that is an [option N].  [convertCurrency] reads the
      own entries of the table; [convertCurrency_proto] is the same
      function with the members that a plain object inherits from
      [Object.prototype], which a read such as
      [exchangeRates["constructor"]] finds.  The two agree on every code
      that is not the name of such a member.
    - A string is a sequence of code units below 256.
    - [parseFloat], [String], [Date.now], [toISOString] and
      [window.confirm] belong to the platform: the first two are
      parameters of the model, the others are inputs of the handlers. *)

From Stdlib Require Import ZArith QArith Qcanon Floats Ascii String.
From stdpp Require Import gmap strings list.

Set Warnings "-inexact-float".

(** ** Numbers *)

(** The operations on numbers that the program uses. *)
Class JSNumber (N : Type) := {
  num_zero : N;
  num_nan : N;                    (* ToNumber(undefined) *)
  num_add : N → N → N;
  num_sub : N → N → N;
  num_mul : N → N → N;
  num_div : N → N → N;
  num_eqb : N → N → bool;         (* x === y on numbers *)
  num_ltb : N → N → bool;         (* x < y *)
  num_leb : N → N → bool;         (* x <= y *)
  num_is_nan : N → bool;          (* Number.isNaN(x) *)
}.

(** JavaScript numbers proper. *)
#[export] Instance binary64 : JSNumber float := {|
  num_zero := 0%float;
  num_nan := PrimFloat.nan;
  num_add := PrimFloat.add;
  num_sub := PrimFloat.sub;
  num_mul := PrimFloat.mul;
  num_div := PrimFloat.div;
  num_eqb := PrimFloat.eqb;
  num_ltb := PrimFloat.ltb;
  num_leb := PrimFloat.leb;
  num_is_nan := PrimFloat.is_nan;
|}.

(** Exact arithmetic: the rationals, and [Undef] for what has no value
    (a quotient by zero, arithmetic on [undefined]). *)
Inductive exact : Type :=
  | Rat (q : Qc)
  | Undef.

Definition exact_lift2 (f : Qc → Qc → Qc) (x y : exact) : exact :=
  match x, y with
  | Rat a, Rat b => Rat (f a b)
  | _, _ => Undef
  end.

Definition exact_div (x y : exact) : exact :=
  match x, y with
  | Rat a, Rat b =>
      match (b ?= 0)%Qc with
      | Eq => Undef
      | _ => Rat (a / b)%Qc
      end
  | _, _ => Undef
  end.

Definition exact_cmp (ok : comparison → bool) (x y : exact) : bool :=
  match x, y with
  | Rat a, Rat b => ok (a ?= b)%Qc
  | _, _ => false
  end.

#[export] Instance exact_number : JSNumber exact := {|
  num_zero := Rat 0%Qc;
  num_nan := Undef;
  num_add := exact_lift2 Qcplus;
  num_sub := exact_lift2 Qcminus;
  num_mul := exact_lift2 Qcmult;
  num_div := exact_div;
  num_eqb := exact_cmp (λ c, match c with Eq => true | _ => false end);
  num_ltb := exact_cmp (λ c, match c with Lt => true | _ => false end);
  num_leb := exact_cmp (λ c, match c with Gt => false | _ => true end);
  num_is_nan := λ x, match x with Undef => true | Rat _ => false end;
|}.

(** The order law behind form validation: a number that is not NaN and is
    not below zero is at least zero. *)
Class JSNumberOrder (N : Type) `{JSNumber N} : Prop := {
  num_not_lt_zero : ∀ x : N,
    num_is_nan x = false → num_ltb x num_zero = false → num_leb num_zero x = true;
}.

Section Conversion.
Context {N : Type} `{JSNumber N}.

(** ToBoolean on a number: [+0], [-0] and [NaN] are falsy. *)
Definition truthy (x : N) : bool :=
  negb (num_eqb x num_zero || num_is_nan x).

(** ToBoolean on the result of a property read ([undefined] is falsy). *)
Definition to_boolean (v : option N) : bool :=
  match v with
  | Some x => truthy x
  | None => false
  end.

(** ToNumber on the result of a property read. *)
Definition to_number (v : option N) : N :=
  match v with
  | Some x => x
  | None => num_nan
  end.

(** [convertCurrency], lines 217-242.  [exchangeRates] is the component
    state the closure reads; a read yields the own entry of the table
    (for the members inherited from [Object.prototype] see
    [convertCurrency_proto]). *)
Definition convertCurrency (exchangeRates : gmap string N)
    (amount : N) (fromCurrency toCurrency : string) : N :=
  if decide (fromCurrency = toCurrency) then amount
  else if decide (size exchangeRates = 0) then amount
  else if negb (to_boolean (exchangeRates !! fromCurrency))
          && bool_decide (fromCurrency ≠ "USD") then amount
  else if negb (to_boolean (exchangeRates !! toCurrency))
          && bool_decide (toCurrency ≠ "USD") then amount
  else
    let amountInUSD :=
      if decide (fromCurrency = "USD") then amount
      else num_div amount (to_number (exchangeRates !! fromCurrency)) in
    if decide (toCurrency = "USD") then amountInUSD
    else num_mul amountInUSD (to_number (exchangeRates !! toCurrency)).


(** The conversion as the specification words it: pivot through the
    base currency, dividing by the source rate unless the source is the
    base and multiplying by the target rate unless the target is the
    base. *)
Definition pivot_through_base (rate_source rate_target : N)
    (amount : N) (source target : string) : N :=
  let amount_in_base :=
    if decide (source = "USD") then amount else num_div amount rate_source in
  if decide (target = "USD") then amount_in_base
  else num_mul amount_in_base rate_target.
End Conversion.

(** ** The prototype of the rate table *)

(** The names that a plain object inherits from [Object.prototype]. *)
Definition Object_prototype : list string :=
  [ "constructor"; "__proto__"; "hasOwnProperty"; "isPrototypeOf";
    "propertyIsEnumerable"; "toLocaleString"; "toString"; "valueOf";
    "__defineGetter__"; "__defineSetter__"; "__lookupGetter__";
    "__lookupSetter__" ].

(** What the read [exchangeRates[key]] yields: the number of an own entry,
    else the function or object inherited under that name, else
    [undefined]. *)
Inductive Property (N : Type) : Type :=
  | OwnNumber (x : N)
  | Inherited
  | Undefined.
Arguments OwnNumber {N} x.
Arguments Inherited {N}.
Arguments Undefined {N}.

Section Prototype.
Context {N : Type} `{JSNumber N}.

Definition read (exchangeRates : gmap string N) (key : string) : Property N :=
  match exchangeRates !! key with
  | Some x => OwnNumber x
  | None => if bool_decide (key ∈ Object_prototype) then Inherited else Undefined
  end.

(** ToBoolean: a function or an object is truthy. *)
Definition property_to_boolean (v : Property N) : bool :=
  match v with
  | OwnNumber x => truthy x
  | Inherited => true
  | Undefined => false
  end.

(** ToNumber: a function, the prototype object and [undefined] all give
    NaN. *)
Definition property_to_number (v : Property N) : N :=
  match v with
  | OwnNumber x => x
  | Inherited => num_nan
  | Undefined => num_nan
  end.

(** [convertCurrency], lines 217-242, with the reads of lines 222, 223, 232
    and 240 going through the prototype. *)
Definition convertCurrency_proto (exchangeRates : gmap string N)
    (amount : N) (fromCurrency toCurrency : string) : N :=
  if decide (fromCurrency = toCurrency) then amount
  else if decide (size exchangeRates = 0) then amount
  else if negb (property_to_boolean (read exchangeRates fromCurrency))
          && bool_decide (fromCurrency ≠ "USD") then amount
  else if negb (property_to_boolean (read exchangeRates toCurrency))
          && bool_decide (toCurrency ≠ "USD") then amount
  else
    let amountInUSD :=
      if decide (fromCurrency = "USD") then amount
      else num_div amount (property_to_number (read exchangeRates fromCurrency)) in
    if decide (toCurrency = "USD") then amountInUSD
    else num_mul amountInUSD (property_to_number (read exchangeRates toCurrency)).

(** A code reads as its own entry when it has one or when it is not the
    name of an inherited member. *)
Definition reads_own (exchangeRates : gmap string N) (key : string) : Prop :=
  is_Some (exchangeRates !! key) ∨ key ∉ Object_prototype.
End Prototype.

(** ** Signs of binary64 numbers *)

(** Zero, a positive number or plus infinity. *)
Definition SFnonneg (x : spec_float) : bool :=
  match x with
  | S754_zero _ => true
  | S754_infinity s => negb s
  | S754_nan => false
  | S754_finite s _ _ => negb s
  end.

(** A positive number other than infinity. *)
Definition SFpositive_finite (x : spec_float) : bool :=
  match x with
  | S754_finite false _ _ => true
  | _ => false
  end.

(** The sign of a number: [Lt] below zero, [Gt] above, [Eq] for the zeros
    and for NaN. *)
Definition SFsign (x : spec_float) : comparison :=
  match x with
  | S754_zero _ => Eq
  | S754_nan => Eq
  | S754_infinity s => if s then Lt else Gt
  | S754_finite s _ _ => if s then Lt else Gt
  end.

(** Every rate of the table is a number at least zero and not infinite. *)
Definition rates_nonneg_finite (rates : gmap string float) : Prop :=
  ∀ c r, rates !! c = Some r →
    (0 <=? r)%float = true ∧ (r <? infinity)%float = true.

(** ** Strings *)

(** The code units below 256 that [String.prototype.trim] strips:
    TAB, LF, VT, FF, CR, SPACE and NO-BREAK SPACE. *)
Definition is_white_space (c : ascii) : bool :=
  bool_decide (nat_of_ascii c ∈ [9; 10; 11; 12; 13; 32; 160]).

Fixpoint trimStart (s : string) : string :=
  match s with
  | EmptyString => EmptyString
  | String c s' => if is_white_space c then trimStart s' else s
  end.

Fixpoint trimEnd (s : string) : string :=
  match s with
  | EmptyString => EmptyString
  | String c s' =>
      match trimEnd s' with
      | EmptyString => if is_white_space c then EmptyString else String c EmptyString
      | t => String c t
      end
  end.

Definition trim (s : string) : string := trimEnd (trimStart s).

(** ToBoolean on a string: only the empty string is falsy. *)
Definition nonempty (s : string) : bool := negb (bool_decide (s = "")).

(** ** Data model and application state *)

Section Store.
Context {N : Type} `{JSNumber N}.

(** An entry object.  [entry_currency] is [None] when the property is
    absent (entries stored by the single-currency version). *)
Record Entry : Type := mkEntry {
  entry_id : Z;
  entry_type : string;
  entry_label : string;
  entry_amount : N;
  entry_category : string;
  entry_currency : option string;
  entry_date : string;
}.

Record FormValues : Type := mkForm {
  form_type : string;
  form_label : string;
  form_amount : string;
  form_category : string;
  form_entryCurrency : string;
}.

(** The [useState] cells of [App] that the logic reads or writes. *)
Record State : Type := mkState {
  entries : list Entry;
  editingId : option Z;
  formValues : FormValues;
  currency : string;
  exchangeRates : gmap string N;
}.

Definition setEntries (f : list Entry → list Entry) (st : State) : State :=
  mkState (f (entries st)) (editingId st) (formValues st) (currency st) (exchangeRates st).

Definition setEditingId (v : option Z) (st : State) : State :=
  mkState (entries st) v (formValues st) (currency st) (exchangeRates st).

Definition setFormValues (v : FormValues) (st : State) : State :=
  mkState (entries st) (editingId st) v (currency st) (exchangeRates st).

(** [entry.currency || currency] *)
Definition currency_or (c : option string) (display : string) : string :=
  match c with
  | Some s => if nonempty s then s else display
  | None => display
  end.

(** ** Summary aggregator, lines 269-289 *)

Record Summary : Type := mkSummary {
  totalIncome : N;
  totalExpenses : N;
  balance : N;
}.

Definition converted (st : State) (entry : Entry) : N :=
  let entryCurrency := currency_or (entry_currency entry) (currency st) in
  convertCurrency (exchangeRates st) (entry_amount entry) entryCurrency (currency st).

Definition summary (st : State) : Summary :=
  let totalIncome :=
    fold_left (λ sum entry, num_add sum (converted st entry))
      (filter (λ entry, entry_type entry = "income") (entries st)) num_zero in
  let totalExpenses :=
    fold_left (λ sum entry, num_add sum (converted st entry))
      (filter (λ entry, entry_type entry = "expense") (entries st)) num_zero in
  let balance := num_sub totalIncome totalExpenses in
  mkSummary totalIncome totalExpenses balance.

(** The total of one type as the specification words it: go through the
    entries once, in order, adding the converted amount of each entry of
    that type to a running total. *)
Fixpoint running_total (st : State) (ty : string) (total : N) (l : list Entry) : N :=
  match l with
  | [] => total
  | entry :: l' =>
      running_total st ty
        (if decide (entry_type entry = ty) then num_add total (converted st entry)
         else total) l'
  end.

(** ** Form controller *)

Variable parseFloat : string → N.
Variable numberToString : N → string.      (* String(x) on a number *)

(** [resetForm], lines 137-145 *)
Definition resetForm (st : State) : State :=
  setFormValues (mkForm "income" "" "" "" (currency st)) st.

(** The object written over the entry being edited, lines 157-164. *)
Definition edited (entry : Entry) (form : FormValues) (amountNumber : N) : Entry :=
  mkEntry (entry_id entry) (form_type form) (trim (form_label form)) amountNumber
    (form_category form) (Some (form_entryCurrency form)) (entry_date entry).

(** [handleSubmit], lines 147-183.  [now] is [Date.now()] and [iso] is
    [new Date().toISOString()] at the time of the call. *)
Definition handleSubmit (now : Z) (iso : string) (st : State) : State :=
  let form := formValues st in
  let amountNumber := parseFloat (form_amount form) in
  if num_is_nan amountNumber || num_ltb amountNumber num_zero then st
  else if negb (nonempty (trim (form_label form))) || negb (nonempty (form_category form))
  then st
  else
    match editingId st with
    | Some id =>
        resetForm (setEditingId None (setEntries (λ prev,
          map (λ entry,
            if decide (entry_id entry = id) then edited entry form amountNumber
            else entry) prev) st))
    | None =>
        let newEntry :=
          mkEntry now (form_type form) (trim (form_label form)) amountNumber
            (form_category form) (Some (form_entryCurrency form)) iso in
        resetForm (setEntries (λ prev, prev ++ [newEntry]) st)
    end.

(** [handleEditEntry], lines 185-201 *)
Definition handleEditEntry (id : Z) (st : State) : State :=
  match find (λ e, bool_decide (entry_id e = id)) (entries st) with
  | None => st
  | Some entry =>
      setEditingId (Some id)
        (setFormValues
           (mkForm (entry_type entry) (entry_label entry)
              (numberToString (entry_amount entry)) (entry_category entry)
              (currency_or (entry_currency entry) (currency st))) st)
  end.

(** [handleCancelEdit], lines 203-206 *)
Definition handleCancelEdit (st : State) : State :=
  resetForm (setEditingId None st).

(** [handleDeleteEntry], lines 208-213.  [confirmed] is the answer of
    [window.confirm]. *)
Definition handleDeleteEntry (confirmed : bool) (id : Z) (st : State) : State :=
  if confirmed then setEntries (λ prev, filter (λ entry, entry_id entry ≠ id) prev) st
  else st.

(** The user operations on the entry store. *)
Inductive Operation : Type :=
  | Submit (now : Z) (iso : string)
  | Edit (id : Z)
  | CancelEdit
  | Delete (confirmed : bool) (id : Z).

Definition perform (op : Operation) (st : State) : State :=
  match op with
  | Submit now iso => handleSubmit now iso st
  | Edit id => handleEditEntry id st
  | CancelEdit => handleCancelEdit st
  | Delete confirmed id => handleDeleteEntry confirmed id st
  end.

(** The data-model invariant of an entry. *)
Definition entry_ok (e : Entry) : Prop :=
  num_leb num_zero (entry_amount e) = true
  ∧ trim (entry_label e) ≠ ""
  ∧ entry_category e ≠ "".

(** What "removing exactly the entries with a given id, keeping the
    others in order" means, without reference to the code. *)
Inductive removes (id : Z) : list Entry → list Entry → Prop :=
  | removes_nil : removes id [] []
  | removes_drop e l l' :
      entry_id e = id → removes id l l' → removes id (e :: l) l'
  | removes_keep e l l' :
      entry_id e ≠ id → removes id l l' → removes id (e :: l) (e :: l').
End Store.

Arguments Entry N : clear implicits.
Arguments FormValues : clear implicits.
Arguments State N : clear implicits.
Arguments Summary N : clear implicits.

(** ** Concrete inputs *)

(** A parser for the strings made of an optional minus sign and decimal
    digits.  On such strings of at most fifteen digits it returns what
    [parseFloat] returns (the integer is a binary64 value); it is NaN on
    every other string, where [parseFloat] may accept more.  It serves to
    run the model on concrete forms. *)
Fixpoint digits_value (s : string) (acc : Z) : option Z :=
  match s with
  | EmptyString => Some acc
  | String c s' =>
      let d := Z.of_nat (nat_of_ascii c) in
      if bool_decide (48 ≤ d ≤ 57)%Z then digits_value s' (10 * acc + (d - 48))%Z
      else None
  end.

Definition float_of_Z (n : Z) : float := PrimFloat.of_uint63 (Uint63.of_Z n).

Definition parseInteger (s : string) : float :=
  match s with
  | EmptyString => PrimFloat.nan
  | String "-" EmptyString => PrimFloat.nan
  | String "-" s' =>
      match digits_value s' 0 with
      | Some n => PrimFloat.opp (float_of_Z n)
      | None => PrimFloat.nan
      end
  | _ =>
      match digits_value s 0 with
      | Some n => float_of_Z n
      | None => PrimFloat.nan
      end
  end.

(** The rate table of the specification's example: EUR at 0.9 to the
    dollar, and the base currency at 1 as the fetch leaves it. *)
Definition rates_example : gmap string float :=
  <["EUR" := 0.9%float]> (<["USD" := 1%float]> ∅).

(** The entries of the specification's example, shown in dollars. *)
Definition state_example : State float :=
  mkState
    [ mkEntry 1 "income" "Salary" 1000%float "salary" (Some "USD") "2024-01-01T00:00:00.000Z";
      mkEntry 2 "expense" "Groceries" 200%float "food" (Some "EUR") "2024-01-02T00:00:00.000Z" ]
    None (mkForm "income" "" "" "" "USD") "USD" rates_example.

(** The same state while the second entry is being edited, with a valid
    form (the label has blanks around it). *)
Definition state_editing : State float :=
  mkState (entries state_example) (Some 2%Z)
    (mkForm "expense" "  Rent " "750" "bills" "EUR") "USD" rates_example.

(** The same state with a form whose amount is below zero. *)
Definition state_invalid : State float :=
  mkState (entries state_example) None
    (mkForm "income" "Bonus" "-5" "salary" "USD") "USD" rates_example.

(** A rate table with a rate of zero. *)
Definition rates_zero : gmap string float :=
  <["EUR" := 0%float]> (<["GBP" := 2%float]> (<["USD" := 1%float]> ∅)).



(** A table with two rates besides the base. *)
Definition rates_two : gmap string float :=
  <["EUR" := 0.92%float]> (<["INR" := 83.1%float]> (<["USD" := 1%float]> ∅)).

(** ** Rate cache, lines 89-120 *)

(** The number one, which the rate cache writes into the table. *)
Class JSNumberOne (N : Type) := num_one : N.

#[export] Instance binary64_one : JSNumberOne float := 1%float.
#[export] Instance exact_one : JSNumberOne exact := Rat 1%Qc.

(** [CURRENCY_LIST], line 16: the keys of [CURRENCY_SYMBOLS], lines 3-14,
    in the order they are written. *)
Definition CURRENCY_LIST : list string :=
  ["USD"; "EUR"; "GBP"; "JPY"; "INR"; "CAD"; "AUD"; "CHF"; "CNY"; "SGD"].

(** How a run of [fetchExchangeRates] ends: an exception anywhere in the
    [try] block, a response without [rates], or a response with a rate
    table. *)
Inductive FetchOutcome (N : Type) : Type :=
  | FetchFailed
  | FetchedNoRates
  | Fetched (rates : gmap string N).
Arguments FetchFailed {N}.
Arguments FetchedNoRates {N}.
Arguments Fetched {N} rates.

Section RateCache.
Context {N : Type} `{JSNumber N} `{JSNumberOne N}.

(** The table built in the [catch] block, lines 104-109. *)
Definition fallbackRates : gmap string N :=
  fold_left (λ rates curr,
      if decide (curr ≠ "USD") then <[curr := num_one]> rates else rates)
    CURRENCY_LIST (<["USD" := num_one]> ∅).

(** The table handed to [setExchangeRates], lines 97-100 and 110. *)
Definition fetchedRates (outcome : FetchOutcome N) : gmap string N :=
  match outcome with
  | Fetched rates => <["USD" := num_one]> rates
  | FetchedNoRates => <["USD" := num_one]> ∅
  | FetchFailed => fallbackRates
  end.

Definition setExchangeRates (rates : gmap string N) (st : State N) : State N :=
  mkState (entries st) (editingId st) (formValues st) (currency st) rates.

(** [fetchExchangeRates], lines 91-114, as a state change once the
    request has ended. *)
Definition fetchExchangeRates (outcome : FetchOutcome N) (st : State N) : State N :=
  setExchangeRates (fetchedRates outcome) st.

(** A currency that [convertCurrency] can pivot through: the base, or one
    with a truthy rate in the table. *)
Definition convertible (rates : gmap string N) (c : string) : Prop :=
  c = "USD" ∨ ∃ r, rates !! c = Some r ∧ truthy r = true.
End RateCache.

(** ** Summary aggregator over the prototype *)

Section SummaryPrototype.
Context {N : Type} `{JSNumber N}.

(** The body of the two reducers, lines 274-276 and 282-284, with
    [convertCurrency] reading through the prototype. *)
Definition converted_proto (st : State N) (entry : Entry N) : N :=
  let entryCurrency := currency_or (entry_currency entry) (currency st) in
  convertCurrency_proto (exchangeRates st) (entry_amount entry) entryCurrency (currency st).

(** [summary], lines 269-289, likewise. *)
Definition summary_proto (st : State N) : Summary N :=
  let totalIncome :=
    fold_left (λ sum entry, num_add sum (converted_proto st entry))
      (filter (λ entry, entry_type entry = "income") (entries st)) num_zero in
  let totalExpenses :=
    fold_left (λ sum entry, num_add sum (converted_proto st entry))
      (filter (λ entry, entry_type entry = "expense") (entries st)) num_zero in
  let balance := num_sub totalIncome totalExpenses in
  mkSummary totalIncome totalExpenses balance.

(** No currency of the state is the name of an inherited member: not the
    display currency, and not the currency of an entry. *)
Definition plain_currencies (st : State N) : Prop :=
  (currency st ∉ Object_prototype)
  ∧ (∀ e, e ∈ entries st →
       currency_or (entry_currency e) (currency st) ∉ Object_prototype).
End SummaryPrototype.

(** ** The rest of the component *)

Section Component.
Context {N : Type} `{JSNumber N}.

(** [summary] of the single-currency version of the component (second
    part of the file, lines 907-918 of the source as given). *)
Definition summary_single (entries : list (Entry N)) : Summary N :=
  let totalIncome :=
    fold_left (λ sum entry, num_add sum (entry_amount entry))
      (filter (λ entry, entry_type entry = "income") entries) num_zero in
  let totalExpenses :=
    fold_left (λ sum entry, num_add sum (entry_amount entry))
      (filter (λ entry, entry_type entry = "expense") entries) num_zero in
  let balance := num_sub totalIncome totalExpenses in
  mkSummary totalIncome totalExpenses balance.

(** [balanceColor], lines 291-296 *)
Definition balanceColor (s : Summary N) : string :=
  if num_ltb (balance s) num_zero then "text-red-500 dark:text-red-400"
  else if num_ltb num_zero (balance s) then "text-green-500 dark:text-green-400"
  else "text-blue-500 dark:text-blue-400".

(** [handleFormChange], lines 122-135; [id] and [value] are those of the
    event target. *)
Definition handleFormChange (id value : string) (st : State N) : State N :=
  let prev := formValues st in
  if decide (id = "entryAmount") then
    setFormValues (mkForm (form_type prev) (form_label prev) value
                     (form_category prev) (form_entryCurrency prev)) st
  else if decide (id = "entryType") then
    setFormValues (mkForm value (form_label prev) (form_amount prev)
                     (form_category prev) (form_entryCurrency prev)) st
  else if decide (id = "entryLabel") then
    setFormValues (mkForm (form_type prev) value (form_amount prev)
                     (form_category prev) (form_entryCurrency prev)) st
  else if decide (id = "entryCategory") then
    setFormValues (mkForm (form_type prev) (form_label prev) (form_amount prev)
                     value (form_entryCurrency prev)) st
  else if decide (id = "entryCurrency") then
    setFormValues (mkForm (form_type prev) (form_label prev) (form_amount prev)
                     (form_category prev) value) st
  else st.

(** [filteredEntries], lines 256-259 *)
Definition filteredEntries (currentFilter : string) (entries : list (Entry N))
    : list (Entry N) :=
  if decide (currentFilter = "all") then entries
  else filter (λ entry, entry_type entry = currentFilter) entries.

(** The ids in the entry list, in order. *)
Definition entry_ids (st : State N) : list Z := entry_id <$> entries st.
End Component.

(** [Array.prototype.sort] with a comparison function.  The language
    fixes its result for a consistent comparison: the elements in
    comparison order, those that compare equal in their original order.
    Insertion from the right, each element put before the first one it
    does not follow, computes that list. *)
Fixpoint sort_insert {A : Type} (compare : A → A → Z) (x : A) (l : list A) : list A :=
  match l with
  | [] => [x]
  | y :: l' =>
      if decide (compare x y ≤ 0)%Z then x :: l
      else y :: sort_insert compare x l'
  end.

Definition sort {A : Type} (compare : A → A → Z) (l : list A) : list A :=
  foldr (sort_insert compare) [] l.

Section SortedView.
Context {N : Type}.

(** [new Date(s).getTime()] for the date strings of entries, which
    [toISOString] wrote: a whole number of milliseconds. *)
Variable getTime : string → Z.

(** The comparison function of line 264. *)
Definition compareByDate (a b : Entry N) : Z :=
  (getTime (entry_date b) - getTime (entry_date a))%Z.

(** [sortedEntries], lines 261-267 *)
Definition sortedEntries (currentFilter : string) (entries : list (Entry N))
    : list (Entry N) :=
  sort compareByDate (filteredEntries currentFilter entries).
End SortedView.

(** [s.split(sep)] for a separator of one code unit. *)
Fixpoint split (sep : ascii) (s : string) : list string :=
  match s with
  | EmptyString => [EmptyString]
  | String c s' =>
      if decide (c = sep) then EmptyString :: split sep s'
      else
        match split sep s' with
        | word :: words => String c word :: words
        | [] => [String c EmptyString]
        end
  end.

(** [words.join(sep)] *)
Definition join (sep : string) (words : list string) : string :=
  match words with
  | [] => EmptyString
  | word :: words' => fold_left (λ joined w, joined +:+ sep +:+ w) words' word
  end.

(** [word.charAt(0)] and [word.slice(1)] *)
Definition charAt0 (word : string) : string :=
  match word with
  | EmptyString => EmptyString
  | String c _ => String c EmptyString
  end.

Definition slice1 (word : string) : string :=
  match word with
  | EmptyString => EmptyString
  | String _ rest => rest
  end.

Section Formatting.
(** [String.prototype.toUpperCase] belongs to the platform. *)
Variable toUpperCase : string → string.

(** [formatCategory], lines 250-254 *)
Definition formatCategory (category : string) : string :=
  join " " (map (λ word, toUpperCase (charAt0 word) +:+ slice1 word)
              (split "-" category)).
End Formatting.

(** ** Persisted settings, lines 37-46, 53, 72 and 82 *)

(** [window.localStorage] is a map from keys to strings; [None] stands
    for a run without [window]. *)
Definition loadPrimitive (storage : option (gmap string string))
    (key fallback : string) : string :=
  match storage with
  | None => fallback
  | Some items => default fallback (items !! key)
  end.

Definition savePrimitive (storage : option (gmap string string))
    (key value : string) : option (gmap string string) :=
  match storage with
  | None => None
  | Some items => Some (<[key := value]> items)
  end.

(** The initial value of [isDarkMode], line 53, and the write of the
    effect of line 72. *)
Definition loadDarkMode (storage : option (gmap string string)) : bool :=
  bool_decide (loadPrimitive storage "darkMode" "disabled" = "enabled").

Definition saveDarkMode (isDarkMode : bool) (storage : option (gmap string string))
    : option (gmap string string) :=
  savePrimitive storage "darkMode" (if isDarkMode then "enabled" else "disabled").

(** The initial value of [currency], line 52, and the write of line 82. *)
Definition loadCurrency (storage : option (gmap string string)) : string :=
  loadPrimitive storage "budgetCurrency" "USD".

Definition saveCurrency (currency : string) (storage : option (gmap string string))
    : option (gmap string string) :=
  savePrimitive storage "budgetCurrency" currency.

(** ** More concrete inputs *)

(** The example before the rates have arrived. *)
Definition state_loading : State float :=
  mkState (entries state_example) None (mkForm "income" "" "" "" "USD") "USD" ∅.

(** The example with a valid form in create mode. *)
Definition state_creating : State float :=
  mkState (entries state_example) None
    (mkForm "expense" "  Rent " "750" "bills" "EUR") "USD" rates_example.

(** A clock on the dates of the example: the day of the month. *)
Definition day_of (date : string) : Z :=
  match date with
  | "2024-01-01T00:00:00.000Z" => 1
  | "2024-01-02T00:00:00.000Z" => 2
  | _ => 0
  end.

From Stdlib Require DecimalString.

(** The decimal digits of the whole part of a number, with its sign.  On
    the whole numbers below 10^21 in size, on the infinities and on NaN it
    is what [String] returns; on a number with a fractional part [String]
    writes that part too.  It serves, with [parseInteger], to run the
    model on concrete entries. *)
Definition wholeToString (x : float) : string :=
  match Prim2SF x with
  | S754_zero _ => "0"
  | S754_infinity false => "Infinity"
  | S754_infinity true => "-Infinity"
  | S754_nan => "NaN"
  | S754_finite s m e =>
      (if s then "-" else "")
      +:+ DecimalString.NilZero.string_of_uint (N.to_uint (Z.to_N (Z.shiftl (Z.pos m) e)))
  end.

(** Edit mode points at an entry of the list. *)
Definition editing_valid {N : Type} (st : State N) : Prop :=
  ∀ id, editingId st = Some id → id ∈ entry_ids st.

(** A state whose one entry, in euros, has the id zero. *)
Definition state_zero_id : State float :=
  mkState
    [ mkEntry 0 "expense" "Groceries" 200%float "food" (Some "EUR")
        "1970-01-01T00:00:00.000Z" ]
    None (mkForm "income" "" "" "" "USD") "USD" rates_example.

(** ** Display currency, lines 80-87 and 298-300 *)

Section DisplayCurrency.
Context {N : Type}.

Definition setCurrency (value : string) (st : State N) : State N :=
  mkState (entries st) (editingId st) (formValues st) value (exchangeRates st).

(** ToBoolean on [editingId]: [null] and the id zero are falsy. *)
Definition editing (st : State N) : bool :=
  match editingId st with
  | None => false
  | Some id => negb (bool_decide (id = 0%Z))
  end.

(** The body of the effect of lines 81-87, apart from the write to the
    storage: outside edit mode the currency field of the form follows the
    display currency. *)
Definition syncFormCurrency (st : State N) : State N :=
  if editing st then st
  else
    let prev := formValues st in
    setFormValues (mkForm (form_type prev) (form_label prev) (form_amount prev)
                     (form_category prev) (currency st)) st.

(** [handleCurrencyChange], lines 298-300, with the run of the effect that
    a change of [currency] brings about; setting the value that is already
    there changes no state and runs no effect. *)
Definition handleCurrencyChange (value : string) (st : State N) : State N :=
  if decide (value = currency st) then st
  else syncFormCurrency (setCurrency value st).
End DisplayCurrency.

(** ** The conversion engine *)

Section ConversionFacts.
Context {N : Type} `{JSNumber N}.
Implicit Types (rates : gmap string N) (amount : N) (c source target : string).

Lemma size_nonzero_of_lookup rates c (r : N) :
  rates !! c = Some r → size rates ≠ 0.
Proof.
  intros Hc Hsize. apply map_size_empty_iff in Hsize.
  rewrite Hsize, lookup_empty in Hc. discriminate.
Qed.

(** C1: converting from a currency to itself returns the amount as it
    is, whatever the rate table holds (empty, or lacking the currency). *)
Theorem convertCurrency_same_currency rates amount c :
  convertCurrency rates amount c c = amount.
Proof.
  unfold convertCurrency. destruct (decide (c = c)) as [_|Hne]; [reflexivity|].
  contradiction Hne; reflexivity.
Qed.

(** On own entries alone: between two distinct currencies, when the rate
    table is empty, or the source has no rate and is not USD, or the
    target has no rate and is not USD, the amount comes back unchanged. *)
Lemma convertCurrency_own_missing_rate rates amount source target :
  source ≠ target →
  rates = ∅
  ∨ (rates !! source = None ∧ source ≠ "USD")
  ∨ (rates !! target = None ∧ target ≠ "USD") →
  convertCurrency rates amount source target = amount.
Proof.
  intros Hne Hmiss. unfold convertCurrency.
  destruct (decide (source = target)) as [|_]; [done|].
  destruct (decide (size rates = 0)) as [|Hsize]; [done|].
  destruct Hmiss as [Hempty | [[Hs Hs'] | [Ht Ht']]].
  - subst rates. rewrite map_size_empty in Hsize. done.
  - rewrite Hs. simpl. rewrite bool_decide_eq_true_2 by done. done.
  - destruct (negb (to_boolean (rates !! source)) && bool_decide (source ≠ "USD")); [done|].
    rewrite Ht. simpl. rewrite bool_decide_eq_true_2 by done. done.
Qed.

(** With both rates in the table, and truthy for a currency other than
    the base, the conversion is the pivot through the base currency. *)
Lemma convertCurrency_pivot rates amount source target (rs rt : N) :
  source ≠ target →
  rates !! source = Some rs →
  rates !! target = Some rt →
  (source ≠ "USD" → truthy rs = true) →
  (target ≠ "USD" → truthy rt = true) →
  convertCurrency rates amount source target
  = pivot_through_base rs rt amount source target.
Proof.
  intros Hne Hs Ht Hts Htt. unfold convertCurrency, pivot_through_base.
  destruct (decide (source = target)) as [|_]; [done|].
  destruct (decide (size rates = 0)) as [Hsize|_].
  { by apply size_nonzero_of_lookup in Hs. }
  rewrite Hs, Ht. simpl.
  destruct (decide (source = "USD")) as [Hsu|Hsu];
    destruct (decide (target = "USD")) as [Htu|Htu];
    rewrite ?(bool_decide_eq_false_2 (source ≠ "USD")) by (intros ?; done);
    rewrite ?(bool_decide_eq_false_2 (target ≠ "USD")) by (intros ?; done);
    rewrite ?Hts, ?Htt by done; simpl; rewrite ?andb_false_r; reflexivity.
Qed.




End ConversionFacts.

(** ** The conversion engine and the prototype of the table *)

Section PrototypeFacts.
Context {N : Type} `{JSNumber N}.
Implicit Types (rates : gmap string N) (amount : N) (c source target : string).

Lemma read_own_to_boolean rates c :
  reads_own rates c →
  property_to_boolean (read rates c) = to_boolean (rates !! c).
Proof.
  unfold read. intros [[r Hr] | Hc].
  - rewrite Hr. reflexivity.
  - destruct (rates !! c); [reflexivity|].
    rewrite bool_decide_eq_false_2 by done. reflexivity.
Qed.

Lemma read_own_to_number rates c :
  reads_own rates c →
  property_to_number (read rates c) = to_number (rates !! c).
Proof.
  unfold read. intros [[r Hr] | Hc].
  - rewrite Hr. reflexivity.
  - destruct (rates !! c); [reflexivity|].
    rewrite bool_decide_eq_false_2 by done. reflexivity.
Qed.

(** On such codes the two models of [convertCurrency] agree. *)
Lemma convertCurrency_proto_own rates amount source target :
  reads_own rates source →
  reads_own rates target →
  convertCurrency_proto rates amount source target
  = convertCurrency rates amount source target.
Proof.
  intros Hs Ht. unfold convertCurrency_proto, convertCurrency.
  rewrite !(read_own_to_boolean rates source Hs), !(read_own_to_boolean rates target Ht),
    !(read_own_to_number rates source Hs), !(read_own_to_number rates target Ht).
  reflexivity.
Qed.

Lemma USD_not_inherited : "USD" ∉ Object_prototype.
Proof. apply (bool_decide_unpack _). vm_compute. exact I. Qed.

(** An inherited member passes the guard of line 222 and is then used as
    the divisor. *)
Lemma convertCurrency_proto_inherited_source rates amount source :
  rates ≠ ∅ →
  rates !! source = None →
  source ∈ Object_prototype →
  convertCurrency_proto rates amount source "USD" = num_div amount num_nan.
Proof.
  intros Hne Hs Hin. unfold convertCurrency_proto.
  assert (source ≠ "USD") as Hsu.
  { intros ->. by apply USD_not_inherited. }
  destruct (decide (source = "USD")) as [|_]; [done|].
  destruct (decide (size rates = 0)) as [Hsize|_].
  { by apply map_size_empty_iff in Hsize. }
  unfold read. rewrite Hs, (bool_decide_eq_true_2 _ Hin). simpl.
  destruct (rates !! "USD"); simpl;
    rewrite ?(bool_decide_eq_false_2 ("USD" ≠ "USD")) by (intros ?; done);
    rewrite ?andb_false_r;
    by destruct (decide ("USD" = "USD")).
Qed.

End PrototypeFacts.

(** ** Trimming *)

Lemma trimEnd_head c s :
  is_white_space c = false → ∃ t, trimEnd (String c s) = String c t.
Proof.
  intros Hc. simpl. rewrite Hc. destruct (trimEnd s); eauto.
Qed.

Lemma trimEnd_idempotent s : trimEnd (trimEnd s) = trimEnd s.
Proof.
  induction s as [|c s IH]; [reflexivity|].
  simpl. destruct (trimEnd s) as [|d t] eqn:Ht.
  - destruct (is_white_space c) eqn:Hc; simpl; [reflexivity|]. by rewrite Hc.
  - simpl in IH |- *. by rewrite IH.
Qed.

Lemma trimStart_head s :
  trimStart s = "" ∨ ∃ c t, trimStart s = String c t ∧ is_white_space c = false.
Proof.
  induction s as [|c s IH]; [by left|].
  simpl. destruct (is_white_space c) eqn:Hc; [exact IH|]. right. eauto.
Qed.

Lemma trim_idempotent s : trim (trim s) = trim s.
Proof.
  unfold trim. destruct (trimStart_head s) as [-> | (c & t & -> & Hc)]; [reflexivity|].
  destruct (trimEnd_head c t Hc) as [u Hu].
  rewrite Hu at 1. simpl trimStart. rewrite Hc, <- Hu. apply trimEnd_idempotent.
Qed.

Lemma nonempty_true s : nonempty s = true ↔ s ≠ "".
Proof.
  unfold nonempty. rewrite negb_true_iff, bool_decide_eq_false. reflexivity.
Qed.

Lemma nonempty_false s : nonempty s = false ↔ s = "".
Proof.
  unfold nonempty. rewrite negb_false_iff, bool_decide_eq_true. reflexivity.
Qed.

(** ** The entry store *)

Section StoreFacts.
Context {N : Type} `{JSNumber N}.
Variable parseFloat : string → N.
Variable numberToString : N → string.
Implicit Types (st : State N) (e entry : Entry N) (l : list (Entry N)) (id : Z).

(** *** Summary *)

Lemma fold_filter_running_total st ty l (total : N) :
  fold_left (λ sum entry, num_add sum (converted st entry))
    (filter (λ entry, entry_type entry = ty) l) total
  = running_total st ty total l.
Proof.
  revert total. induction l as [|e l IH]; intros total; [reflexivity|].
  rewrite filter_cons. simpl.
  destruct (decide (entry_type e = ty)); simpl; apply IH.
Qed.

(** C5: for every state (entries, display currency, rate table), the
    balance is the total income minus the total expenses, the total income
    is the running sum of the converted amounts of the income entries and
    the total expenses that of the expense entries. *)
Theorem summary_balance st :
  balance (summary st) = num_sub (totalIncome (summary st)) (totalExpenses (summary st))
  ∧ totalIncome (summary st) = running_total st "income" num_zero (entries st)
  ∧ totalExpenses (summary st) = running_total st "expense" num_zero (entries st).
Proof.
  unfold summary. simpl. split; [reflexivity|].
  split; apply fold_filter_running_total.
Qed.

(** *** Delete *)

Lemma filter_removes id l :
  removes id l (filter (λ entry, entry_id entry ≠ id) l).
Proof.
  induction l as [|e l IH]; [constructor|].
  rewrite filter_cons. destruct (decide (entry_id e ≠ id)) as [Hne|Heq].
  - by apply removes_keep.
  - apply removes_drop; [|done]. by apply dec_stable.
Qed.

Lemma removes_functional id l l1 l2 :
  removes id l l1 → removes id l l2 → l1 = l2.
Proof.
  intros H1. revert l2. induction H1; intros l2 H2; inversion H2; subst;
    try done; f_equal; auto.
Qed.

Lemma removes_elem_of id l l' e :
  removes id l l' → e ∈ l' ↔ e ∈ l ∧ entry_id e ≠ id.
Proof.
  induction 1 as [|e0 l l' Heq _ IH|e0 l l' Hne _ IH].
  - split; [by intros ?%elem_of_nil | by intros [?%elem_of_nil _]].
  - rewrite IH, elem_of_cons. split; [tauto|]. intros [[->|?] ?]; tauto.
  - rewrite !elem_of_cons, IH. split; [|tauto].
    intros [->|[? ?]]; tauto.
Qed.

Lemma filter_all l (P : Entry N → Prop) `{∀ x, Decision (P x)} :
  (∀ e, e ∈ l → P e) → filter P l = l.
Proof.
  induction l as [|e l IH]; intros Hall; [reflexivity|].
  rewrite filter_cons, decide_True by (apply Hall; left).
  f_equal. apply IH. intros e' He'. apply Hall. by right.
Qed.

(** C6: a confirmed delete removes exactly the entries whose id is the
    given one and keeps every other entry, in the original order; when no
    entry has that id the state, and so the entry list, is unchanged.  An
    unconfirmed delete changes nothing. *)
Theorem handleDeleteEntry_removes_matching st id :
  removes id (entries st) (entries (handleDeleteEntry true id st))
  ∧ (∀ e, e ∈ entries (handleDeleteEntry true id st) ↔ e ∈ entries st ∧ entry_id e ≠ id)
  ∧ ((∀ e, e ∈ entries st → entry_id e ≠ id) → handleDeleteEntry true id st = st)
  ∧ handleDeleteEntry false id st = st.
Proof.
  split; [apply filter_removes|].
  split; [intros e; apply (removes_elem_of id (entries st)), filter_removes|].
  split; [|reflexivity].
  intros Hall. destruct st as [l ? ? ? ?]. unfold handleDeleteEntry, setEntries. simpl in *.
  f_equal. by apply filter_all.
Qed.

(** *** Submit *)

Lemma handleSubmit_valid now iso st :
  num_is_nan (parseFloat (form_amount (formValues st))) = false →
  num_ltb (parseFloat (form_amount (formValues st))) num_zero = false →
  trim (form_label (formValues st)) ≠ "" →
  form_category (formValues st) ≠ "" →
  handleSubmit parseFloat now iso st
  = match editingId st with
    | Some id =>
        resetForm (setEditingId None (setEntries (λ prev,
          map (λ entry,
            if decide (entry_id entry = id)
            then edited entry (formValues st) (parseFloat (form_amount (formValues st)))
            else entry) prev) st))
    | None =>
        resetForm (setEntries (λ prev, prev ++
          [mkEntry now (form_type (formValues st)) (trim (form_label (formValues st)))
             (parseFloat (form_amount (formValues st))) (form_category (formValues st))
             (Some (form_entryCurrency (formValues st))) iso]) st)
    end.
Proof.
  intros Hnan Hlt Hlabel Hcat. unfold handleSubmit.
  rewrite Hnan, Hlt. simpl.
  apply nonempty_true in Hlabel, Hcat. rewrite Hlabel, Hcat. reflexivity.
Qed.

(** A submission either returns the state it was given or has passed
    the validation of lines 150-151. *)
Lemma handleSubmit_accepts now iso st :
  handleSubmit parseFloat now iso st = st
  ∨ (num_is_nan (parseFloat (form_amount (formValues st))) = false
     ∧ num_ltb (parseFloat (form_amount (formValues st))) num_zero = false
     ∧ trim (form_label (formValues st)) ≠ ""
     ∧ form_category (formValues st) ≠ "").
Proof.
  unfold handleSubmit.
  destruct (num_is_nan _) eqn:Hnan; [by left|].
  destruct (num_ltb _ _) eqn:Hlt; [by left|]. simpl.
  destruct (nonempty (trim _)) eqn:Hlabel; [|by left].
  destruct (nonempty (form_category _)) eqn:Hcat; [|by left].
  right. by rewrite <- !nonempty_true.
Qed.

(** C7: in edit mode, with an entry of id [editingId] in the list, a valid
    submission clears edit mode, keeps the length of the list, and leaves
    at every position either the old entry (id different) or the old entry
    with its type, label (trimmed), amount, category and currency taken
    from the form (id equal); id and date stay. *)
Theorem handleSubmit_edit_replaces_matching now iso st id :
  editingId st = Some id →
  (∃ e, e ∈ entries st ∧ entry_id e = id) →
  num_is_nan (parseFloat (form_amount (formValues st))) = false →
  num_ltb (parseFloat (form_amount (formValues st))) num_zero = false →
  trim (form_label (formValues st)) ≠ "" →
  form_category (formValues st) ≠ "" →
  editingId (handleSubmit parseFloat now iso st) = None
  ∧ length (entries (handleSubmit parseFloat now iso st)) = length (entries st)
  ∧ (∀ (i : nat) e, entries st !! i = Some e →
       entries (handleSubmit parseFloat now iso st) !! i
       = Some (if decide (entry_id e = id)
               then mkEntry (entry_id e) (form_type (formValues st))
                      (trim (form_label (formValues st)))
                      (parseFloat (form_amount (formValues st)))
                      (form_category (formValues st))
                      (Some (form_entryCurrency (formValues st))) (entry_date e)
               else e))
  ∧ (∃ (i : nat) e, entries st !! i = Some e ∧ entry_id e = id).
Proof.
  intros Hedit (e0 & Hin & Hid) Hnan Hlt Hlabel Hcat.
  rewrite (handleSubmit_valid now iso st Hnan Hlt Hlabel Hcat), Hedit. simpl.
  split; [reflexivity|]. split; [apply length_map|]. split.
  - intros i e Hi. rewrite list_lookup_fmap, Hi. simpl.
    destruct (decide (entry_id e = id)); reflexivity.
  - apply list_elem_of_lookup in Hin as [i Hi]. eauto.
Qed.

(** C8: when the amount does not parse to a number, or parses below
    zero, or the label is blank once trimmed, or the category is empty,
    submitting returns the state it was given: entries, [editingId] and
    the form itself are unchanged.  The function is total. *)
Theorem handleSubmit_invalid_is_noop now iso st :
  num_is_nan (parseFloat (form_amount (formValues st))) = true
  ∨ num_ltb (parseFloat (form_amount (formValues st))) num_zero = true
  ∨ trim (form_label (formValues st)) = ""
  ∨ form_category (formValues st) = "" →
  handleSubmit parseFloat now iso st = st.
Proof.
  intros Hbad. unfold handleSubmit.
  destruct (num_is_nan _ || num_ltb _ _) eqn:Hamount; [reflexivity|].
  apply orb_false_iff in Hamount as [Hnan Hlt].
  destruct Hbad as [Hb | [Hb | [Hb | Hb]]]; [congruence | congruence | |].
  - apply nonempty_false in Hb. rewrite Hb. reflexivity.
  - apply nonempty_false in Hb. rewrite Hb, orb_true_r. reflexivity.
Qed.

(** *** The invariant *)

Context `{!JSNumberOrder N}.

Lemma accepted_entry_ok (form : FormValues) id date :
  num_is_nan (parseFloat (form_amount form)) = false →
  num_ltb (parseFloat (form_amount form)) num_zero = false →
  trim (form_label form) ≠ "" →
  form_category form ≠ "" →
  entry_ok (mkEntry id (form_type form) (trim (form_label form))
              (parseFloat (form_amount form)) (form_category form)
              (Some (form_entryCurrency form)) date).
Proof.
  intros Hnan Hlt Hlabel Hcat. unfold entry_ok. simpl.
  split; [by apply num_not_lt_zero|]. split; [by rewrite trim_idempotent|done].
Qed.

Lemma handleSubmit_produces_ok now iso st (i : nat) e' :
  entries (handleSubmit parseFloat now iso st) !! i = Some e' →
  entries st !! i = Some e' ∨ entry_ok e'.
Proof.
  destruct (handleSubmit_accepts now iso st) as [-> | (Hnan & Hlt & Hlabel & Hcat)];
    [by left|].
  rewrite (handleSubmit_valid now iso st Hnan Hlt Hlabel Hcat).
  destruct (editingId st) as [id|]; simpl.
  - rewrite list_lookup_fmap. destruct (entries st !! i) as [e|]; [|done].
    simpl. destruct (decide (entry_id e = id)); intros [= <-]; [right|by left].
    by apply accepted_entry_ok.
  - intros Hi. apply lookup_app_Some in Hi as [Hi | [_ Hi]]; [by left|].
    right. apply list_lookup_singleton_Some in Hi as [_ <-].
    by apply accepted_entry_ok.
Qed.

Lemma perform_entries_ok op st :
  Forall entry_ok (entries st) →
  Forall entry_ok (entries (perform parseFloat numberToString op st)).
Proof.
  intros Hok. destruct op as [now iso | id | | confirmed id]; simpl.
  - apply Forall_lookup. intros i e' Hi.
    destruct (handleSubmit_produces_ok now iso st i e' Hi) as [Hold|]; [|done].
    by eapply Forall_lookup_1.
  - unfold handleEditEntry. by destruct (find _ _).
  - done.
  - destruct confirmed; simpl; [|done].
    apply Forall_forall. intros e [_ He]%list_elem_of_filter.
    by eapply Forall_forall in Hok.
Qed.

(** C9: an entry that a submission puts in the list (one that was not
    already at that position) satisfies the data-model invariant: amount
    at least zero, label not blank, category not empty.  Hence every
    operation (submit, in create or in edit mode, start of an edit,
    cancel, delete) keeps a list of such entries a list of such entries. *)
Theorem entry_invariant_preserved :
  (∀ now iso st (i : nat) e',
      entries (handleSubmit parseFloat now iso st) !! i = Some e' →
      entries st !! i = Some e' ∨ entry_ok e')
  ∧ (∀ op st,
      Forall entry_ok (entries st) →
      Forall entry_ok (entries (perform parseFloat numberToString op st))).
Proof.
  split; [exact handleSubmit_produces_ok | exact perform_entries_ok].
Qed.
End StoreFacts.

(** ** The two number models *)

Lemma binary64_not_lt_zero (x : float) :
  PrimFloat.is_nan x = false → PrimFloat.ltb x 0 = false → PrimFloat.leb 0 x = true.
Proof.
  unfold PrimFloat.is_nan.
  rewrite FloatAxioms.eqb_spec, FloatAxioms.ltb_spec, FloatAxioms.leb_spec.
  change (Prim2SF 0) with (S754_zero false).
  destruct (Prim2SF x) as [[|] | [|] | | [|] m e]; cbn; congruence.
Qed.

#[export] Instance binary64_order : JSNumberOrder float.
Proof. constructor. exact binary64_not_lt_zero. Qed.

Lemma exact_not_lt_zero (x : exact) :
  num_is_nan x = false → num_ltb x num_zero = false → num_leb num_zero x = true.
Proof.
  destruct x as [q|]; simpl; [|discriminate]. intros _.
  unfold Qccompare. rewrite <- (Qcompare_antisym q 0%Qc).
  destruct (q ?= 0%Qc)%Q; simpl; congruence.
Qed.

#[export] Instance exact_order : JSNumberOrder exact.
Proof. constructor. exact exact_not_lt_zero. Qed.


Section RoundTrip.
Context {N : Type} `{JSNumber N}.

End RoundTrip.




(** In binary64 the same round trip is subject to rounding: 1000 at a
    rate of 0.92 comes back as the next number above 1000. *)
Example round_trip_binary64_rounds :
  let rates : gmap string float := <["EUR" := 0.92%float]> (<["USD" := 1%float]> ∅) in
  let back := convertCurrency rates (convertCurrency rates 1000%float "EUR" "USD") "USD" "EUR" in
  (back =? 1000)%float = false ∧ back = next_up 1000%float.
Proof. split; vm_compute; reflexivity. Qed.



(** C3: between distinct currencies whose rates are in the table, truthy
    for each currency other than USD, the result is the pivot through the
    base: the amount divided by the source rate (not when the source is
    USD), times the target rate (not when the target is USD).  On the
    example of the specification, in binary64: 200 EUR at 0.9 are
    200 / 0.9 dollars, which rounds to 222.22; the total income is 1000,
    the total of expenses that same 222.22..., the balance 777.77...,
    which rounds to 777.78. *)
Theorem convertCurrency_pivots_through_base :
  (∀ (N : Type) (I : JSNumber N) (rates : gmap string N)
     (amount : N) (source target : string) (rs rt : N),
      source ≠ target →
      rates !! source = Some rs →
      rates !! target = Some rt →
      (source ≠ "USD" → truthy rs = true) →
      (target ≠ "USD" → truthy rt = true) →
      convertCurrency rates amount source target
      = pivot_through_base rs rt amount source target)
  ∧ convertCurrency rates_example 200%float "EUR" "USD" = (200 / 0.9)%float
  ∧ (200 / 0.9)%float = 222.22222222222223%float
  ∧ totalIncome (summary state_example) = 1000%float
  ∧ totalExpenses (summary state_example) = 222.22222222222223%float
  ∧ balance (summary state_example) = 777.77777777777783%float
  ∧ (222.215 <? totalExpenses (summary state_example))%float = true
  ∧ (totalExpenses (summary state_example) <? 222.225)%float = true
  ∧ (777.775 <? balance (summary state_example))%float = true
  ∧ (balance (summary state_example) <? 777.785)%float = true.
Proof.
  split; [intros N I; apply convertCurrency_pivot|].
  repeat split; vm_compute; reflexivity.
Qed.

Lemma convertCurrency_pivots_through_base_witness :
  convertCurrency rates_example 200%float "EUR" "USD"
  = pivot_through_base 0.9%float 1%float 200%float "EUR" "USD".
Proof.
  apply (proj1 convertCurrency_pivots_through_base);
    [discriminate | vm_compute; reflexivity | vm_compute; reflexivity
    | intros _; vm_compute; reflexivity | intros Hne; contradiction Hne; reflexivity].
Defined.

(** Against C3 as first worded (rates merely present): with a rate that
    is in the table but equal to zero the guard returns the amount, 5,
    where dividing by the source rate and multiplying by the target rate
    gives infinity. *)
Lemma convertCurrency_zero_rate_counterexample :
  "EUR" ≠ "GBP"
  ∧ rates_zero !! "EUR" = Some 0%float
  ∧ rates_zero !! "GBP" = Some 2%float
  ∧ size rates_zero = 3
  ∧ convertCurrency rates_zero 5%float "EUR" "GBP" = 5%float
  ∧ (5 / 0 * 2)%float = infinity
  ∧ convertCurrency rates_zero 5%float "EUR" "GBP" ≠ (5 / 0 * 2)%float
  ∧ ¬ (∀ (rates : gmap string float) (amount : float) (source target : string)
         (rs rt : float),
         source ≠ target →
         rates !! source = Some rs →
         rates !! target = Some rt →
         convertCurrency rates amount source target
         = pivot_through_base rs rt amount source target).
Proof.
  assert (convertCurrency rates_zero 5%float "EUR" "GBP" ≠ (5 / 0 * 2)%float) as Hne.
  { intros Heq. apply (f_equal (λ x, PrimFloat.ltb x 6)) in Heq.
    vm_compute in Heq. discriminate. }
  repeat split; [discriminate | exact Hne |].
  intros Hall. apply Hne.
  rewrite (Hall rates_zero 5%float "EUR" "GBP" 0%float 2%float);
    [vm_compute; reflexivity | discriminate | vm_compute; reflexivity
    | vm_compute; reflexivity].
Qed.


(** ** The theorems at concrete inputs *)



Lemma handleSubmit_edit_replaces_matching_witness :
  editingId (handleSubmit parseInteger 3 "2024-01-03T00:00:00.000Z" state_editing) = None
  ∧ entries (handleSubmit parseInteger 3 "2024-01-03T00:00:00.000Z" state_editing)
    = [ mkEntry 1 "income" "Salary" 1000%float "salary" (Some "USD")
          "2024-01-01T00:00:00.000Z";
        mkEntry 2 "expense" "Rent" 750%float "bills" (Some "EUR")
          "2024-01-02T00:00:00.000Z" ].
Proof.
  split; [|vm_compute; reflexivity].
  apply (handleSubmit_edit_replaces_matching parseInteger 3
           "2024-01-03T00:00:00.000Z" state_editing 2).
  - reflexivity.
  - eexists. split; [right; left|]; reflexivity.
  - vm_compute; reflexivity.
  - vm_compute; reflexivity.
  - vm_compute; discriminate.
  - discriminate.
Defined.

Lemma handleSubmit_invalid_is_noop_witness :
  handleSubmit parseInteger 3 "2024-01-03T00:00:00.000Z" state_invalid = state_invalid.
Proof.
  apply handleSubmit_invalid_is_noop. right; left. vm_compute; reflexivity.
Defined.

Lemma state_editing_ok : Forall entry_ok (entries state_editing).
Proof.
  repeat constructor; simpl; try discriminate; vm_compute; discriminate.
Defined.

Lemma entry_invariant_preserved_witness :
  Forall entry_ok
    (entries (perform parseInteger (λ _ : float, "750")
                (Submit 3 "2024-01-03T00:00:00.000Z") state_editing)).
Proof.
  apply (proj2 (entry_invariant_preserved parseInteger (λ _ : float, "750"))).
  exact state_editing_ok.
Defined.

(** ** More on the conversion engine *)

Section BaseRate.
Context {N : Type} `{JSNumber N}.

(** On own entries the result of a conversion depends on the table only
    through the rates of the currencies other than USD. *)
Lemma convertCurrency_own_ignores_base_rate (rates rates' : gmap string N)
    (amount : N) (source target : string) :
  (∀ c, c ≠ "USD" → rates !! c = rates' !! c) →
  convertCurrency rates amount source target
  = convertCurrency rates' amount source target.
Proof.
  intros Hsame.
  assert (∀ (m m' : gmap string N), (∀ c, c ≠ "USD" → m !! c = m' !! c) →
          size m = 0 → source ≠ target →
          convertCurrency m' amount source target = amount) as Hempty.
  { intros m m' Hmm Hsize Hne. apply map_size_empty_iff in Hsize. subst m.
    unfold convertCurrency.
    destruct (decide (source = target)) as [|_]; [done|].
    destruct (decide (size m' = 0)) as [|_]; [done|].
    destruct (decide (source = "USD")) as [->|Hs].
    - rewrite (bool_decide_eq_false_2 ("USD" ≠ "USD")) by (intros ?; done).
      rewrite andb_false_r.
      rewrite <- (Hmm target) by done. rewrite lookup_empty. simpl.
      rewrite bool_decide_eq_true_2 by done. done.
    - rewrite <- (Hmm source) by done. rewrite lookup_empty. simpl.
      rewrite bool_decide_eq_true_2 by done. done. }
  destruct (decide (source = target)) as [->|Hne].
  { unfold convertCurrency. by destruct (decide (target = target)). }
  destruct (decide (size rates = 0)) as [Hz|Hnz].
  { rewrite (Hempty rates rates' Hsame Hz Hne).
    unfold convertCurrency. rewrite decide_False by done. by rewrite decide_True. }
  destruct (decide (size rates' = 0)) as [Hz'|Hnz'].
  { rewrite (Hempty rates' rates (λ c Hc, eq_sym (Hsame c Hc)) Hz' Hne).
    unfold convertCurrency. rewrite decide_False by done. by rewrite decide_True. }
  unfold convertCurrency.
  rewrite !(decide_False (P := source = target)) by done.
  rewrite !(decide_False (P := size _ = 0)) by done.
  destruct (decide (source = "USD")) as [->|Hs];
    destruct (decide (target = "USD")) as [->|Ht]; try done.
  - rewrite (bool_decide_eq_false_2 ("USD" ≠ "USD")) by (intros ?; done).
    rewrite !andb_false_r. by rewrite (Hsame target Ht).
  - rewrite (bool_decide_eq_false_2 ("USD" ≠ "USD")) by (intros ?; done).
    rewrite !andb_false_r. by rewrite (Hsame source Hs).
  - by rewrite (Hsame source Hs), (Hsame target Ht).
Qed.
(** Between two distinct currencies it can pivot through, the function
    reaches its last lines. *)
Lemma convertCurrency_convertible (rates : gmap string N)
    (amount : N) (source target : string) :
  source ≠ target →
  convertible rates source →
  convertible rates target →
  convertCurrency rates amount source target
  = let amountInUSD :=
      if decide (source = "USD") then amount
      else num_div amount (to_number (rates !! source)) in
    if decide (target = "USD") then amountInUSD
    else num_mul amountInUSD (to_number (rates !! target)).
Proof.
  intros Hne Hs Ht. unfold convertCurrency.
  rewrite decide_False by done.
  assert (size rates ≠ 0) as Hsize.
  { destruct Hs as [->|(r & Hr & _)]; [|by eapply size_nonzero_of_lookup].
    destruct Ht as [->|(r & Hr & _)]; [done|by eapply size_nonzero_of_lookup]. }
  rewrite decide_False by done.
  assert (negb (to_boolean (rates !! source)) && bool_decide (source ≠ "USD") = false)
    as ->.
  { destruct Hs as [->|(r & -> & Hr)].
    - rewrite (bool_decide_eq_false_2 ("USD" ≠ "USD")) by (intros ?; done).
      apply andb_false_r.
    - simpl. by rewrite Hr. }
  assert (negb (to_boolean (rates !! target)) && bool_decide (target ≠ "USD") = false)
    as ->.
  { destruct Ht as [->|(r & -> & Hr)].
    - rewrite (bool_decide_eq_false_2 ("USD" ≠ "USD")) by (intros ?; done).
      apply andb_false_r.
    - simpl. by rewrite Hr. }
  reflexivity.
Qed.

Lemma convertible_reads_own (rates : gmap string N) (c : string) :
  convertible rates c → reads_own rates c.
Proof.
  intros [->|(r & Hr & _)]; [right; apply USD_not_inherited | left; eauto].
Qed.

(** X1: between currencies that are not names of members of
    [Object.prototype], the result of a conversion depends on the table
    only through the rates of the currencies other than USD: the entry of
    the base currency itself, present or not and whatever its value, is
    never used. *)
Theorem convertCurrency_ignores_base_rate (rates rates' : gmap string N)
    (amount : N) (source target : string) :
  (∀ c, c ≠ "USD" → rates !! c = rates' !! c) →
  source ∉ Object_prototype →
  target ∉ Object_prototype →
  convertCurrency_proto rates amount source target
  = convertCurrency_proto rates' amount source target.
Proof.
  intros Hsame Hs Ht.
  rewrite !convertCurrency_proto_own by (by right).
  by apply convertCurrency_own_ignores_base_rate.
Qed.

(** X2: a conversion between two distinct currencies the function can
    pivot through (each is USD or has a truthy rate) is the conversion to
    USD followed by the conversion from USD, in every number model: no
    rounding separates the two. *)
Theorem convertCurrency_factors_through_base (rates : gmap string N)
    (amount : N) (source target : string) :
  source ≠ target →
  convertible rates source →
  convertible rates target →
  convertCurrency_proto rates
    (convertCurrency_proto rates amount source "USD") "USD" target
  = convertCurrency_proto rates amount source target.
Proof.
  intros Hne Hs Ht.
  assert (convertible rates "USD") as Hu by (by left).
  rewrite !convertCurrency_proto_own by (by apply convertible_reads_own).
  destruct (decide (source = "USD")) as [->|Hsu].
  { reflexivity. }
  destruct (decide (target = "USD")) as [->|Htu].
  { reflexivity. }
  rewrite !convertCurrency_convertible by done. cbn zeta.
  rewrite (decide_True (P := "USD" = "USD")) by done.
  by rewrite !(decide_False (P := source = "USD")),
    !(decide_False (P := target = "USD")) by done.
Qed.
End BaseRate.

(** Without the condition on the names: an empty table returns the
    amount, a table with nothing but the base rate finds the inherited
    constructor and returns NaN. *)
Example base_rate_inherited_example :
  convertCurrency_proto (∅ : gmap string float) 5%float "constructor" "USD" = 5%float
  ∧ convertCurrency_proto (<["USD" := 1%float]> ∅) 5%float "constructor" "USD"
    = PrimFloat.nan.
Proof. split; vm_compute; reflexivity. Qed.

Lemma convertCurrency_ignores_base_rate_witness :
  convertCurrency_proto (<["USD" := 7%float]> rates_example) 200%float "EUR" "USD"
  = convertCurrency_proto (delete "USD" rates_example) 200%float "EUR" "USD".
Proof.
  apply convertCurrency_ignores_base_rate.
  - intros c Hc. rewrite lookup_insert_ne, lookup_delete_ne by done. reflexivity.
  - apply (bool_decide_unpack _). vm_compute. exact I.
  - apply USD_not_inherited.
Defined.

Lemma convertCurrency_factors_through_base_witness :
  convertCurrency_proto rates_two
    (convertCurrency_proto rates_two 1000%float "EUR" "USD") "USD" "INR"
  = convertCurrency_proto rates_two 1000%float "EUR" "INR".
Proof.
  apply convertCurrency_factors_through_base.
  - discriminate.
  - right. exists 0.92%float. split; vm_compute; reflexivity.
  - right. exists 83.1%float. split; vm_compute; reflexivity.
Defined.

Section NoOp.
Context {N : Type} `{JSNumber N}.

(** A conversion either returns every amount as it is, or is between two
    distinct currencies the function can pivot through. *)
Lemma convertCurrency_noop_or_convertible (rates : gmap string N) s t :
  (∀ amount, convertCurrency rates amount s t = amount)
  ∨ (s ≠ t ∧ convertible rates s ∧ convertible rates t).
Proof.
  unfold convertCurrency.
  destruct (decide (s = t)); [by left|].
  destruct (decide (size rates = 0)); [by left|].
  destruct (bool_decide (s ≠ "USD")) eqn:Hs; destruct (bool_decide (t ≠ "USD")) eqn:Ht;
    rewrite ?andb_true_r, ?andb_false_r.
  - destruct (rates !! s) as [rs|] eqn:Hrs; simpl; [|by left].
    destruct (truthy rs) eqn:Htrs; simpl; [|by left].
    destruct (rates !! t) as [rt|] eqn:Hrt; simpl; [|by left].
    destruct (truthy rt) eqn:Htrt; simpl; [|by left].
    right. split; [done|]. split; right; eauto.
  - apply bool_decide_eq_false in Ht. apply dec_stable in Ht.
    destruct (rates !! s) as [rs|] eqn:Hrs; simpl; [|by left].
    destruct (truthy rs) eqn:Htrs; simpl; [|by left].
    right. split; [done|]. split; [right; eauto | by left].
  - apply bool_decide_eq_false in Hs. apply dec_stable in Hs.
    destruct (rates !! t) as [rt|] eqn:Hrt; simpl; [|by left].
    destruct (truthy rt) eqn:Htrt; simpl; [|by left].
    right. split; [done|]. split; [by left | right; eauto].
  - apply bool_decide_eq_false in Hs. apply dec_stable in Hs.
    apply bool_decide_eq_false in Ht. apply dec_stable in Ht. congruence.
Qed.
End NoOp.

(** ** The rate cache *)

Section RateCacheFacts.
Context {N : Type} `{JSNumber N} `{JSNumberOne N}.

Lemma fallbackRates_lookup (c : string) :
  fallbackRates !! c = if decide (c ∈ CURRENCY_LIST) then Some num_one else None.
Proof.
  unfold fallbackRates, CURRENCY_LIST. cbn [fold_left].
  rewrite (decide_False (P := "USD" ≠ "USD")) by (intros ?; done).
  rewrite !decide_True by done.
  destruct (decide (c ∈ _)) as [Hin|Hout].
  - repeat (apply elem_of_cons in Hin as [->|Hin]);
      try (repeat (rewrite lookup_insert_ne by done); apply lookup_insert_eq).
    by apply elem_of_nil in Hin.
  - rewrite !not_elem_of_cons in Hout.
    repeat (rewrite lookup_insert_ne by (intros <-; tauto)).
    apply lookup_empty.
Qed.

(** X4: whatever the outcome of the request, the table it leaves has the
    base currency at one and is not empty; a fetched table keeps all its
    other rates; the table of the failure case holds exactly the ten
    currencies of [CURRENCY_LIST], each at one. *)
Theorem fetchedRates_normalised (outcome : FetchOutcome N) :
  fetchedRates outcome !! "USD" = Some num_one
  ∧ size (fetchedRates outcome) ≠ 0
  ∧ (∀ rates c, outcome = Fetched rates → c ≠ "USD" →
       fetchedRates outcome !! c = rates !! c)
  ∧ (∀ c, outcome = FetchFailed →
       fetchedRates outcome !! c
       = if decide (c ∈ CURRENCY_LIST) then Some num_one else None).
Proof.
  assert (fetchedRates outcome !! "USD" = Some num_one) as Husd.
  { destruct outcome; simpl; [|by rewrite lookup_insert_eq..].
    rewrite fallbackRates_lookup. reflexivity. }
  split; [done|]. split; [by eapply size_nonzero_of_lookup|]. split.
  - intros rates c -> Hc. simpl. by rewrite lookup_insert_ne.
  - intros c ->. apply fallbackRates_lookup.
Qed.
End RateCacheFacts.

(** ** More on the summary *)

Section SummaryLaws.
Context {N : Type} `{JSNumber N}.
Variable parseFloat : string → N.
Implicit Types (st : State N) (e : Entry N) (l : list (Entry N)).

Lemma fold_left_add_ext (f g : Entry N → N) l (total : N) :
  (∀ e, e ∈ l → f e = g e) →
  fold_left (λ sum entry, num_add sum (f entry)) l total
  = fold_left (λ sum entry, num_add sum (g entry)) l total.
Proof.
  revert total. induction l as [|e l IH]; intros total Hfg; [reflexivity|].
  simpl. rewrite (Hfg e) by left. apply IH. intros e' He'. apply Hfg. by right.
Qed.

Lemma summary_of_unconverted st :
  (∀ e, e ∈ entries st → converted st e = entry_amount e) →
  summary st = summary_single (entries st).
Proof.
  intros Hconv. unfold summary, summary_single.
  rewrite !(fold_left_add_ext (converted st) entry_amount); [reflexivity| |];
    intros e [_ He]%list_elem_of_filter; by apply Hconv.
Qed.

(** X6: when the rate table is empty (the rates are not loaded yet), or
    when every entry is in the display currency (its currency is that
    one, or absent, or empty), the summary is that of the single-currency
    version of the component: the plain sums of the amounts. *)
Theorem summary_without_conversion st :
  exchangeRates st = ∅
  ∨ (∀ e, e ∈ entries st → currency_or (entry_currency e) (currency st) = currency st) →
  summary st = summary_single (entries st).
Proof.
  intros Hcase. apply summary_of_unconverted. intros e He. unfold converted.
  destruct Hcase as [Hempty|Hsame].
  - unfold convertCurrency. rewrite Hempty, map_size_empty.
    destruct (decide (_ = currency st)); [done|]. by rewrite decide_True.
  - rewrite (Hsame e He). unfold convertCurrency. by rewrite decide_True.
Qed.

Lemma summary_entries_app st e :
  let st' := setEntries (λ prev, prev ++ [e]) st in
  totalIncome (summary st')
  = (if decide (entry_type e = "income")
     then num_add (totalIncome (summary st)) (converted st e)
     else totalIncome (summary st))
  ∧ totalExpenses (summary st')
    = (if decide (entry_type e = "expense")
       then num_add (totalExpenses (summary st)) (converted st e)
       else totalExpenses (summary st)).
Proof.
  unfold summary. simpl. rewrite !filter_app, !fold_left_app.
  rewrite !filter_cons, !filter_nil.
  split; case_decide; reflexivity.
Qed.

(** X7: a valid submission in create mode adds the converted amount of
    the new entry to the total of its type, after the amounts already
    there, and leaves the other total as it was. *)
Theorem summary_after_create now iso st :
  editingId st = None →
  num_is_nan (parseFloat (form_amount (formValues st))) = false →
  num_ltb (parseFloat (form_amount (formValues st))) num_zero = false →
  trim (form_label (formValues st)) ≠ "" →
  form_category (formValues st) ≠ "" →
  let added :=
    convertCurrency (exchangeRates st) (parseFloat (form_amount (formValues st)))
      (if nonempty (form_entryCurrency (formValues st))
       then form_entryCurrency (formValues st) else currency st)
      (currency st) in
  let st' := handleSubmit parseFloat now iso st in
  totalIncome (summary st')
  = (if decide (form_type (formValues st) = "income")
     then num_add (totalIncome (summary st)) added
     else totalIncome (summary st))
  ∧ totalExpenses (summary st')
    = (if decide (form_type (formValues st) = "expense")
       then num_add (totalExpenses (summary st)) added
       else totalExpenses (summary st)).
Proof.
  intros Hcreate Hnan Hlt Hlabel Hcat added st'. subst added st'.
  rewrite (handleSubmit_valid parseFloat now iso st Hnan Hlt Hlabel Hcat), Hcreate.
  exact (summary_entries_app st _).
Qed.
End SummaryLaws.

Lemma summary_without_conversion_witness :
  summary state_loading = summary_single (entries state_loading).
Proof. apply summary_without_conversion. left. reflexivity. Defined.

Lemma summary_after_create_witness :
  totalIncome (summary (handleSubmit parseInteger 3 "2024-01-03T00:00:00.000Z" state_creating))
  = 1000%float
  ∧ totalExpenses
      (summary (handleSubmit parseInteger 3 "2024-01-03T00:00:00.000Z" state_creating))
    = (200 / 0.9 + 750 / 0.9)%float.
Proof.
  pose proof (summary_after_create parseInteger 3 "2024-01-03T00:00:00.000Z"
                state_creating) as Hsum.
  cbv zeta in Hsum. destruct Hsum as [Hi He].
  - reflexivity.
  - vm_compute; reflexivity.
  - vm_compute; reflexivity.
  - vm_compute; discriminate.
  - discriminate.
  - split; [rewrite Hi | rewrite He]; vm_compute; reflexivity.
Defined.

(** ** More on the entry store *)

Section StoreLaws.
Context {N : Type} `{JSNumber N}.
Variable parseFloat : string → N.
Variable numberToString : N → string.
Implicit Types (st : State N) (e entry : Entry N) (l : list (Entry N)) (id : Z).

(** X8: a valid submission in create mode appends one entry, made of the
    id and date it was given and of the form (label trimmed, amount
    parsed), after the entries already there; it stays in create mode,
    resets the form to its defaults with the display currency, and leaves
    the display currency and the rate table alone. *)
Theorem handleSubmit_create_appends now iso st :
  editingId st = None →
  num_is_nan (parseFloat (form_amount (formValues st))) = false →
  num_ltb (parseFloat (form_amount (formValues st))) num_zero = false →
  trim (form_label (formValues st)) ≠ "" →
  form_category (formValues st) ≠ "" →
  entries (handleSubmit parseFloat now iso st)
  = entries st ++
      [mkEntry now (form_type (formValues st)) (trim (form_label (formValues st)))
         (parseFloat (form_amount (formValues st))) (form_category (formValues st))
         (Some (form_entryCurrency (formValues st))) iso]
  ∧ editingId (handleSubmit parseFloat now iso st) = None
  ∧ formValues (handleSubmit parseFloat now iso st)
    = mkForm "income" "" "" "" (currency st)
  ∧ currency (handleSubmit parseFloat now iso st) = currency st
  ∧ exchangeRates (handleSubmit parseFloat now iso st) = exchangeRates st.
Proof.
  intros Hcreate Hnan Hlt Hlabel Hcat.
  rewrite (handleSubmit_valid parseFloat now iso st Hnan Hlt Hlabel Hcat), Hcreate.
  simpl. by rewrite Hcreate.
Qed.

Lemma map_edit_absent id l (f : Entry N → Entry N) :
  (∀ e, e ∈ l → entry_id e ≠ id) →
  map (λ entry, if decide (entry_id entry = id) then f entry else entry) l = l.
Proof.
  induction l as [|e l IH]; intros Habs; [reflexivity|]. simpl.
  rewrite decide_False by (apply Habs; left). f_equal. apply IH.
  intros e' He'. apply Habs. by right.
Qed.

(** A valid submission in edit mode whose target is not in the list. *)
Lemma handleSubmit_stale_edit now iso st id :
  editingId st = Some id →
  (∀ e, e ∈ entries st → entry_id e ≠ id) →
  num_is_nan (parseFloat (form_amount (formValues st))) = false →
  num_ltb (parseFloat (form_amount (formValues st))) num_zero = false →
  trim (form_label (formValues st)) ≠ "" →
  form_category (formValues st) ≠ "" →
  handleSubmit parseFloat now iso st = resetForm (setEditingId None st).
Proof.
  intros Hedit Habs Hnan Hlt Hlabel Hcat.
  rewrite (handleSubmit_valid parseFloat now iso st Hnan Hlt Hlabel Hcat), Hedit.
  unfold resetForm, setFormValues, setEditingId, setEntries. simpl.
  by rewrite map_edit_absent.
Qed.

Lemma deleted_absent id st e :
  e ∈ entries (handleDeleteEntry true id st) → entry_id e ≠ id.
Proof. simpl. by intros [? _]%list_elem_of_filter. Qed.

(** X9: deleting the entry that is being edited leaves edit mode on, with
    an id that no entry has any more; a valid submission then changes no
    entry and creates none: what the form held is dropped, edit mode ends
    and the form is reset. *)
Theorem handleSubmit_after_deleting_edited now iso st id :
  editingId st = Some id →
  num_is_nan (parseFloat (form_amount (formValues st))) = false →
  num_ltb (parseFloat (form_amount (formValues st))) num_zero = false →
  trim (form_label (formValues st)) ≠ "" →
  form_category (formValues st) ≠ "" →
  editingId (handleDeleteEntry true id st) = Some id
  ∧ entries (handleSubmit parseFloat now iso (handleDeleteEntry true id st))
    = entries (handleDeleteEntry true id st)
  ∧ editingId (handleSubmit parseFloat now iso (handleDeleteEntry true id st)) = None
  ∧ formValues (handleSubmit parseFloat now iso (handleDeleteEntry true id st))
    = mkForm "income" "" "" "" (currency st).
Proof.
  intros Hedit Hnan Hlt Hlabel Hcat. split; [done|].
  rewrite (handleSubmit_stale_edit now iso (handleDeleteEntry true id st) id);
    try done.
  intros e. apply deleted_absent.
Qed.

(** X10: deletions commute, and deleting an id twice is deleting it
    once. *)
Theorem handleDeleteEntry_commutes a b st :
  handleDeleteEntry true a (handleDeleteEntry true b st)
  = handleDeleteEntry true b (handleDeleteEntry true a st)
  ∧ handleDeleteEntry true a (handleDeleteEntry true a st)
    = handleDeleteEntry true a st.
Proof.
  unfold handleDeleteEntry, setEntries. simpl. split; f_equal.
  - rewrite !list_filter_filter. apply list_filter_iff. tauto.
  - rewrite list_filter_filter. apply list_filter_iff. tauto.
Qed.

Lemma handleEditEntry_absent id st :
  (∀ e, e ∈ entries st → entry_id e ≠ id) → handleEditEntry numberToString id st = st.
Proof.
  intros Habs. unfold handleEditEntry.
  destruct (find _ (entries st)) as [e|] eqn:Hfind; [|reflexivity].
  apply find_some in Hfind as [Hin Hid]. apply bool_decide_eq_true in Hid.
  apply list_elem_of_In in Hin. by apply Habs in Hin.
Qed.

(** X11: an id that no entry has cannot be put under edit:
    [handleEditEntry] then returns the state it was given.  So it is for
    an id that has just been deleted. *)
Theorem handleEditEntry_missing id st :
  ((∀ e, e ∈ entries st → entry_id e ≠ id) →
     handleEditEntry numberToString id st = st)
  ∧ handleEditEntry numberToString id (handleDeleteEntry true id st)
    = handleDeleteEntry true id st.
Proof.
  split; [apply handleEditEntry_absent|].
  apply handleEditEntry_absent. intros e. apply deleted_absent.
Qed.

(** X12: cancelling discards an edit that was started: after
    [handleEditEntry], [handleCancelEdit] gives the state it gives
    without it (entries as they were, create mode, form reset). *)
Theorem handleCancelEdit_discards id st :
  handleCancelEdit (handleEditEntry numberToString id st) = handleCancelEdit st.
Proof.
  unfold handleEditEntry. by destruct (find _ (entries st)).
Qed.

(** *** Ids *)

Lemma handleSubmit_ids now iso st :
  entry_ids (handleSubmit parseFloat now iso st) = entry_ids st
  ∨ (editingId st = None
     ∧ entry_ids (handleSubmit parseFloat now iso st) = entry_ids st ++ [now]).
Proof.
  destruct (handleSubmit_accepts parseFloat now iso st)
    as [-> | (Hnan & Hlt & Hlabel & Hcat)]; [by left|].
  rewrite (handleSubmit_valid parseFloat now iso st Hnan Hlt Hlabel Hcat).
  unfold entry_ids. destruct (editingId st) as [id|]; simpl.
  - left. rewrite <- list_fmap_compose. apply list_fmap_ext.
    intros i e _. simpl. by destruct (decide (entry_id e = id)).
  - right. split; [done|]. by rewrite fmap_app.
Qed.

(** X13: the ids of the entries stay pairwise distinct under every
    operation, provided a submission in create mode comes with an id
    ([Date.now()]) that no entry has yet. *)
Theorem unique_ids_preserved op st :
  NoDup (entry_ids st) →
  (∀ now iso, op = Submit now iso → editingId st = None → now ∉ entry_ids st) →
  NoDup (entry_ids (perform parseFloat numberToString op st)).
Proof.
  intros Hnodup Hfresh. destruct op as [now iso | id | | confirmed id]; simpl.
  - destruct (handleSubmit_ids now iso st) as [-> | [Hcreate ->]]; [done|].
    apply NoDup_app. split; [done|]. split; [|apply NoDup_singleton].
    intros x Hx ->%list_elem_of_singleton. by eapply Hfresh.
  - unfold handleEditEntry. by destruct (find _ _).
  - done.
  - destruct confirmed; [|done]. unfold entry_ids. simpl.
    refine (sublist_NoDup _ _ Hnodup _). apply fmap_sublist, sublist_filter.
Qed.

Lemma filter_none l (P : Entry N → Prop) `{∀ x, Decision (P x)} :
  (∀ e, e ∈ l → ¬ P e) → filter P l = [].
Proof.
  induction l as [|e l IH]; intros Hall; [reflexivity|].
  rewrite filter_cons, decide_False by (apply Hall; left).
  apply IH. intros e' He'. apply Hall. by right.
Qed.

(** X14: creating an entry and deleting it again gives back the entry
    list, provided the id it was created with was not the id of an older
    entry (which the deletion would remove as well). *)
Theorem create_then_delete now iso st :
  editingId st = None →
  now ∉ entry_ids st →
  num_is_nan (parseFloat (form_amount (formValues st))) = false →
  num_ltb (parseFloat (form_amount (formValues st))) num_zero = false →
  trim (form_label (formValues st)) ≠ "" →
  form_category (formValues st) ≠ "" →
  entries (handleDeleteEntry true now (handleSubmit parseFloat now iso st))
  = entries st.
Proof.
  intros Hcreate Hfresh Hnan Hlt Hlabel Hcat.
  rewrite (handleSubmit_valid parseFloat now iso st Hnan Hlt Hlabel Hcat), Hcreate.
  simpl. rewrite filter_app, filter_cons, filter_nil. simpl.
  rewrite ?decide_False by (intros Hne; by apply Hne).
  rewrite app_nil_r. apply filter_all. intros e He Heq.
  apply Hfresh. rewrite <- Heq. unfold entry_ids. by apply list_elem_of_fmap_2.
Qed.

(** *** Editing without a change *)

Lemma unique_id_entry l e e' :
  NoDup (entry_id <$> l) → e ∈ l → e' ∈ l → entry_id e' = entry_id e → e' = e.
Proof.
  induction l as [|x l IH]; intros Hnodup He He' Hid; [by apply elem_of_nil in He|].
  rewrite fmap_cons in Hnodup. apply NoDup_cons in Hnodup as [Hx Hnodup].
  apply elem_of_cons in He as [->|He]; apply elem_of_cons in He' as [->|He'].
  - done.
  - contradict Hx. rewrite <- Hid. by apply list_elem_of_fmap_2.
  - contradict Hx. rewrite Hid. by apply list_elem_of_fmap_2.
  - by apply IH.
Qed.

Lemma find_unique_id l e :
  NoDup (entry_id <$> l) → e ∈ l →
  find (λ x, bool_decide (entry_id x = entry_id e)) l = Some e.
Proof.
  intros Hnodup He.
  destruct (find _ l) as [e'|] eqn:Hfind.
  - apply find_some in Hfind as [Hin Hid]. apply bool_decide_eq_true in Hid.
    apply list_elem_of_In in Hin. f_equal. by eapply unique_id_entry.
  - apply list_elem_of_In in He. eapply find_none in Hfind; [|exact He].
    by apply bool_decide_eq_false in Hfind.
Qed.

Lemma map_fixed l (f : Entry N → Entry N) :
  (∀ e, e ∈ l → f e = e) → map f l = l.
Proof.
  induction l as [|e l IH]; intros Hfix; [reflexivity|]. simpl.
  rewrite Hfix by left. f_equal. apply IH. intros e' He'. apply Hfix. by right.
Qed.

(** X15: putting an entry under edit and submitting the form as it was
    loaded, the effect of lines 81-87 having run in between, changes no
    entry, when ids are pairwise distinct, the id of the entry is not
    zero (the effect takes zero for "not editing" and overwrites the
    currency field) and the entry is as the form writes entries: its
    amount survives [String] and [parseFloat] and is a number not below
    zero, its label is trimmed and not empty, its category not empty, its
    currency present.  Edit mode ends. *)
Theorem edit_then_submit_unchanged now iso st e :
  NoDup (entry_ids st) →
  e ∈ entries st →
  entry_id e ≠ 0%Z →
  parseFloat (numberToString (entry_amount e)) = entry_amount e →
  num_is_nan (entry_amount e) = false →
  num_ltb (entry_amount e) num_zero = false →
  trim (entry_label e) = entry_label e →
  entry_label e ≠ "" →
  entry_category e ≠ "" →
  (∃ c, entry_currency e = Some c ∧ c ≠ "") →
  entries (handleSubmit parseFloat now iso
             (syncFormCurrency (handleEditEntry numberToString (entry_id e) st)))
  = entries st
  ∧ editingId (handleSubmit parseFloat now iso
                 (syncFormCurrency (handleEditEntry numberToString (entry_id e) st)))
    = None.
Proof.
  intros Hnodup He Hid0 Hparse Hnan Hlt Htrim Hlabel Hcat (c & Hcur & Hc).
  unfold handleEditEntry. rewrite (find_unique_id _ e Hnodup He).
  unfold syncFormCurrency, editing. cbn [editingId setEditingId setFormValues].
  rewrite (bool_decide_eq_false_2 _ Hid0). cbn [negb].
  rewrite handleSubmit_valid; simpl; rewrite ?Hparse, ?Htrim; try done.
  split; [|reflexivity].
  apply map_fixed. intros e' He'.
  destruct (decide (entry_id e' = entry_id e)) as [Hid|]; [|reflexivity].
  apply (unique_id_entry _ e e' Hnodup He He') in Hid. subst e'.
  unfold edited. simpl. rewrite Htrim, Hcur. simpl.
  apply nonempty_true in Hc. rewrite Hc, <- Hcur. by destruct e.
Qed.
End StoreLaws.

Section FormLaws.
Context {N : Type} `{JSNumber N}.

(** X16: changes to two different fields of the form can be made in
    either order, and of two changes to the same field the later one
    stands.  (A change whose id is none of the five fields does
    nothing.) *)
Theorem handleFormChange_composes (id1 id2 v1 v2 : string) (st : State N) :
  (id1 ≠ id2 →
   handleFormChange id1 v1 (handleFormChange id2 v2 st)
   = handleFormChange id2 v2 (handleFormChange id1 v1 st))
  ∧ handleFormChange id1 v1 (handleFormChange id1 v2 st) = handleFormChange id1 v1 st.
Proof.
  unfold handleFormChange. split; [intros Hne|];
    repeat case_decide; subst; try done.
Qed.
End FormLaws.

(** ** The list on screen *)

From Stdlib Require Sorted.

Section SortFacts.
Context {A : Type} (key : A → Z).

(** The comparison functions of interest: by a key, larger keys first. *)
Let compare (a b : A) : Z := (key b - key a)%Z.

Lemma sort_insert_perm x (l : list A) : sort_insert compare x l ≡ₚ x :: l.
Proof.
  induction l as [|y l IH]; [reflexivity|]. simpl.
  destruct (decide (compare x y ≤ 0)%Z); [reflexivity|].
  rewrite IH. apply Permutation_swap.
Qed.

Lemma sort_perm (l : list A) : sort compare l ≡ₚ l.
Proof.
  induction l as [|x l IH]; [reflexivity|]. simpl.
  rewrite sort_insert_perm. by rewrite IH.
Qed.

Lemma sort_insert_sorted x (l : list A) :
  Sorted.StronglySorted (λ a b, key b ≤ key a)%Z l →
  Sorted.StronglySorted (λ a b, key b ≤ key a)%Z (sort_insert compare x l).
Proof.
  induction 1 as [|y l Hsorted IH Hy]; simpl.
  - repeat constructor.
  - unfold compare at 1. destruct (decide (key y - key x ≤ 0)%Z) as [Hle|Hgt].
    + constructor; [by constructor|]. constructor; [lia|].
      eapply Forall_impl; [exact Hy|]. simpl. intros z Hz. lia.
    + constructor; [exact IH|].
      rewrite sort_insert_perm. constructor; [lia|exact Hy].
Qed.

Lemma sort_sorted (l : list A) :
  Sorted.StronglySorted (λ a b, key b ≤ key a)%Z (sort compare l).
Proof.
  induction l as [|x l IH]; simpl; [constructor|]. by apply sort_insert_sorted.
Qed.

Lemma sort_insert_stable (t : Z) x (l : list A) :
  filter (λ a, key a = t) (sort_insert compare x l)
  = filter (λ a, key a = t) (x :: l).
Proof.
  induction l as [|y l IH]; [reflexivity|]. simpl.
  unfold compare at 1. destruct (decide (key y - key x ≤ 0)%Z) as [Hle|Hgt];
    [reflexivity|].
  rewrite filter_cons, IH, !filter_cons.
  destruct (decide (key y = t)); destruct (decide (key x = t)); try reflexivity.
  lia.
Qed.

Lemma sort_stable (t : Z) (l : list A) :
  filter (λ a, key a = t) (sort compare l) = filter (λ a, key a = t) l.
Proof.
  induction l as [|x l IH]; [reflexivity|]. simpl.
  rewrite sort_insert_stable, !filter_cons, IH. reflexivity.
Qed.
End SortFacts.

Section ViewFacts.
Context {N : Type} `{JSNumber N}.
Variable getTime : string → Z.
Implicit Types (entries : list (Entry N)) (e : Entry N).

(** X17: the list on screen holds exactly the entries of the selected
    type (all of them under "all"), each as often as the entry list has
    it, latest date first, and entries of one and the same instant in the
    order the entry list has them. *)
Theorem sortedEntries_sorted currentFilter entries :
  sortedEntries getTime currentFilter entries ≡ₚ filteredEntries currentFilter entries
  ∧ (∀ e, e ∈ sortedEntries getTime currentFilter entries
          ↔ e ∈ entries ∧ (currentFilter = "all" ∨ entry_type e = currentFilter))
  ∧ Sorted.StronglySorted (λ a b, getTime (entry_date b) ≤ getTime (entry_date a))%Z
      (sortedEntries getTime currentFilter entries)
  ∧ (∀ t, filter (λ e, getTime (entry_date e) = t)
            (sortedEntries getTime currentFilter entries)
          = filter (λ e, getTime (entry_date e) = t)
              (filteredEntries currentFilter entries)).
Proof.
  unfold sortedEntries, compareByDate.
  pose proof (sort_perm (λ e : Entry N, getTime (entry_date e))
                (filteredEntries currentFilter entries)) as Hperm.
  split; [exact Hperm|]. split; [|split].
  - intros e. rewrite Hperm. unfold filteredEntries.
    destruct (decide (currentFilter = "all")) as [->|Hf].
    + split; [auto | tauto].
    + rewrite list_elem_of_filter. split; [tauto|].
      intros [He [?|?]]; [done | tauto].
  - apply (sort_sorted (λ e : Entry N, getTime (entry_date e))).
  - intros t. apply (sort_stable (λ e : Entry N, getTime (entry_date e))).
Qed.
End ViewFacts.

(** ** Category names *)

Lemma append_cons c (a b : string) : String c a +:+ b = String c (a +:+ b).
Proof. reflexivity. Qed.

Lemma append_assoc (a b c : string) : (a +:+ b) +:+ c = a +:+ b +:+ c.
Proof.
  induction a as [|ch a IH]; [reflexivity|]. rewrite !append_cons. by rewrite IH.
Qed.

Lemma split_not_nil sep s : split sep s ≠ [].
Proof.
  destruct s as [|c s]; [done|]. simpl.
  destruct (decide (c = sep)); [done|]. by destruct (split sep s).
Qed.

Lemma split_app sep (a b : string) :
  split sep (a +:+ String sep b) = split sep a ++ split sep b.
Proof.
  induction a as [|c a IH]; [simpl; by rewrite decide_True|].
  rewrite append_cons. simpl.
  - destruct (decide (c = sep)); [by rewrite IH|].
    rewrite IH. pose proof (split_not_nil sep a).
    by destruct (split sep a).
Qed.

Lemma split_no_separator sep (s : string) :
  sep ∉ list_ascii_of_string s → split sep s = [s].
Proof.
  induction s as [|c s IH]; [reflexivity|]. simpl.
  intros [Hc Hs]%not_elem_of_cons.
  rewrite decide_False by done. by rewrite IH.
Qed.

Lemma fold_join_prefix sep (p q : string) (ws : list string) :
  fold_left (λ joined w, joined +:+ sep +:+ w) ws (p +:+ q)
  = p +:+ fold_left (λ joined w, joined +:+ sep +:+ w) ws q.
Proof.
  revert q. induction ws as [|w ws IH]; intros q; [reflexivity|]. simpl.
  by rewrite append_assoc, IH.
Qed.

Lemma join_app sep (l1 l2 : list string) :
  l1 ≠ [] → l2 ≠ [] → join sep (l1 ++ l2) = join sep l1 +:+ sep +:+ join sep l2.
Proof.
  destruct l1 as [|w ws]; [done|]. destruct l2 as [|v vs]; [done|]. intros _ _.
  simpl. rewrite fold_left_app. simpl. by rewrite !fold_join_prefix.
Qed.

Section FormattingFacts.
Variable toUpperCase : string → string.

(** X18: [formatCategory] works word by word: a hyphen in the category
    becomes a space between the formatted parts on either side of it, and
    a category without a hyphen has its first code unit put in upper case
    and the rest kept. *)
Theorem formatCategory_words :
  (∀ a b : string,
      formatCategory toUpperCase (a +:+ "-" +:+ b)
      = formatCategory toUpperCase a +:+ " " +:+ formatCategory toUpperCase b)
  ∧ (∀ word : string,
      "-"%char ∉ list_ascii_of_string word →
      formatCategory toUpperCase word = toUpperCase (charAt0 word) +:+ slice1 word).
Proof.
  split.
  - intros a b. unfold formatCategory.
    change ("-" +:+ b) with (String "-" b). rewrite split_app, map_app.
    apply join_app; intros Hnil%fmap_nil_inv; by apply split_not_nil in Hnil.
  - intros word Hword. unfold formatCategory.
    by rewrite split_no_separator.
Qed.
End FormattingFacts.

(** ** Persisted settings *)

(** X19: the display currency and the dark-mode flag that the effects
    write are what the next start of the component reads, and writing one
    does not disturb the other; without [window] nothing is kept and the
    defaults, USD and light mode, are read. *)
Theorem settings_survive_reload (items : gmap string string) (currency : string)
    (isDarkMode : bool) :
  loadCurrency (saveCurrency currency (Some items)) = currency
  ∧ loadDarkMode (saveDarkMode isDarkMode (Some items)) = isDarkMode
  ∧ loadCurrency (saveDarkMode isDarkMode (saveCurrency currency (Some items)))
    = currency
  ∧ loadDarkMode (saveCurrency currency (saveDarkMode isDarkMode (Some items)))
    = isDarkMode
  ∧ loadCurrency (saveCurrency currency None) = "USD"
  ∧ loadDarkMode (saveDarkMode isDarkMode None) = false.
Proof.
  unfold loadCurrency, saveCurrency, loadDarkMode, saveDarkMode,
    loadPrimitive, savePrimitive.
  repeat (rewrite ?lookup_insert_eq; rewrite ?lookup_insert_ne by done). simpl.
  repeat split; try reflexivity; by destruct isDarkMode.
Qed.

(** ** Sequences of operations *)

Section Sequences.
Context {N : Type} `{JSNumber N}.
Variable parseFloat : string → N.
Variable numberToString : N → string.
Implicit Types (st : State N) (e : Entry N) (id : Z).

Lemma handleSubmit_rejects_blank now iso st :
  trim (form_label (formValues st)) = "" → handleSubmit parseFloat now iso st = st.
Proof.
  intros Hblank. unfold handleSubmit.
  destruct (num_is_nan _ || num_ltb _ _); [reflexivity|].
  apply nonempty_false in Hblank. by rewrite Hblank.
Qed.

(** X21: submitting twice in a row is submitting once: a submission that
    is accepted resets the form, and the reset form is rejected, so the
    second submission (whatever its time) adds and changes nothing. *)
Theorem handleSubmit_twice now iso now' iso' st :
  handleSubmit parseFloat now' iso' (handleSubmit parseFloat now iso st)
  = handleSubmit parseFloat now iso st.
Proof.
  destruct (handleSubmit_accepts parseFloat now iso st)
    as [Hsame | (Hnan & Hlt & Hlabel & Hcat)].
  - rewrite Hsame. unfold handleSubmit in Hsame |- *.
    destruct (num_is_nan _ || num_ltb _ _); [reflexivity|].
    destruct (negb (nonempty (trim _)) || negb (nonempty _)); [reflexivity|].
    exfalso. destruct st as [l [id|] form cur rates];
      unfold resetForm, setFormValues, setEditingId, setEntries in Hsame;
      simpl in Hsame.
    + discriminate Hsame.
    + injection Hsame as Hl _. apply (f_equal length) in Hl.
      rewrite length_app in Hl. simpl in Hl. lia.
  - rewrite (handleSubmit_valid parseFloat now iso st Hnan Hlt Hlabel Hcat).
    apply handleSubmit_rejects_blank. by destruct (editingId st).
Qed.

(** X22: edit mode keeps pointing at an entry of the list under every
    operation but one: a confirmed deletion of the very entry that is
    being edited. *)
Theorem editing_valid_preserved op st :
  editing_valid st →
  (∀ id, op = Delete true id → editingId st ≠ Some id) →
  editing_valid (perform parseFloat numberToString op st).
Proof.
  intros Hvalid Hother. destruct op as [now iso | id | | confirmed id]; simpl.
  - destruct (handleSubmit_accepts parseFloat now iso st)
      as [-> | (Hnan & Hlt & Hlabel & Hcat)]; [done|].
    rewrite (handleSubmit_valid parseFloat now iso st Hnan Hlt Hlabel Hcat).
    intros id'. destruct (editingId st) as [id|] eqn:Hedit; simpl; [done|].
    by rewrite Hedit.
  - unfold handleEditEntry.
    destruct (find _ (entries st)) as [e|] eqn:Hfind; [|done].
    apply find_some in Hfind as [Hin Hid]. apply bool_decide_eq_true in Hid.
    apply list_elem_of_In in Hin.
    intros id' [= <-]. unfold entry_ids. simpl. rewrite <- Hid.
    by apply list_elem_of_fmap_2.
  - intros id'. simpl. done.
  - destruct confirmed; [|done]. intros id' Hedit. simpl in Hedit.
    specialize (Hvalid id' Hedit). unfold entry_ids in *. simpl.
    apply list_elem_of_fmap in Hvalid as (e & -> & He).
    apply list_elem_of_fmap_2, list_elem_of_filter. split; [|done].
    intros Heq. apply (Hother id); [done|]. by rewrite <- Heq.
Qed.
End Sequences.

(** ** The display currency *)

Section EffectFacts.
Context {N : Type} `{JSNumber N}.
Variable parseFloat : string → N.
Variable numberToString : N → string.
Implicit Types (st : State N).

(** X25: the effect that keeps the currency field of the form in step
    with the display currency has nothing to change after the handlers:
    not after a cancelled edit, not after an accepted submission, and not
    after an entry has been put under edit, when its id is not zero
    (zero counts as "not editing" for the effect, though not for
    [handleSubmit]). *)
Theorem syncFormCurrency_after_handlers :
  (∀ st, syncFormCurrency (handleCancelEdit st) = handleCancelEdit st)
  ∧ (∀ now iso st,
      num_is_nan (parseFloat (form_amount (formValues st))) = false →
      num_ltb (parseFloat (form_amount (formValues st))) num_zero = false →
      trim (form_label (formValues st)) ≠ "" →
      form_category (formValues st) ≠ "" →
      syncFormCurrency (handleSubmit parseFloat now iso st)
      = handleSubmit parseFloat now iso st)
  ∧ (∀ id st,
      id ≠ 0%Z →
      (∃ e, e ∈ entries st ∧ entry_id e = id) →
      syncFormCurrency (handleEditEntry numberToString id st)
      = handleEditEntry numberToString id st).
Proof.
  split; [reflexivity|]. split.
  - intros now iso st Hnan Hlt Hlabel Hcat.
    rewrite (handleSubmit_valid parseFloat now iso st Hnan Hlt Hlabel Hcat).
    destruct (editingId st) as [id|] eqn:Hedit;
      unfold syncFormCurrency, editing, resetForm, setFormValues, setEditingId,
        setEntries; simpl; rewrite ?Hedit; reflexivity.
  - intros id st Hid (e & He & Heid). unfold handleEditEntry.
    destruct (find _ (entries st)) as [e'|] eqn:Hfind.
    + unfold syncFormCurrency, editing. simpl.
      by rewrite bool_decide_eq_false_2.
    + apply list_elem_of_In in He. eapply find_none in Hfind; [|exact He].
      by apply bool_decide_eq_false in Hfind.
Qed.
End EffectFacts.

(** In binary64 the order of the entries can show in the totals: a large
    amount absorbs the small ones that come after it. *)
Example summary_order_binary64 :
  let entry (id : Z) (amount : float) :=
    mkEntry id "income" "Sale" amount "other-income" (Some "USD")
      "2024-01-01T00:00:00.000Z" in
  let state entries :=
    mkState entries None (mkForm "income" "" "" "" "USD") "USD" rates_example in
  totalIncome (summary (state [entry 1%Z 1e16%float; entry 2%Z 1%float; entry 3%Z 1%float]))
  = 1e16%float
  ∧ totalIncome (summary (state [entry 2%Z 1%float; entry 3%Z 1%float; entry 1%Z 1e16%float]))
    = 10000000000000002%float.
Proof. split; vm_compute; reflexivity. Qed.

(** The list on screen for the example, under "all": the later entry
    first. *)
Example sortedEntries_example :
  sortedEntries day_of "all" (entries state_example)
  = [ mkEntry 2 "expense" "Groceries" 200%float "food" (Some "EUR")
        "2024-01-02T00:00:00.000Z";
      mkEntry 1 "income" "Salary" 1000%float "salary" (Some "USD")
        "2024-01-01T00:00:00.000Z" ].
Proof. vm_compute. reflexivity. Qed.

(** ** The summary over the prototype *)

Section SummaryPrototypeFacts.
Context {N : Type} `{JSNumber N}.
Implicit Types (st : State N) (e : Entry N).

Lemma converted_proto_own st e :
  plain_currencies st → e ∈ entries st → converted_proto st e = converted st e.
Proof.
  intros [Hc He] Hin. unfold converted_proto, converted.
  apply convertCurrency_proto_own; right; [by apply He | done].
Qed.

(** With such currencies the two models of the summary agree. *)
Lemma summary_proto_own st :
  plain_currencies st → summary_proto st = summary st.
Proof.
  intros Hplain. unfold summary_proto, summary.
  rewrite !(fold_left_add_ext (converted_proto st) (converted st)); [reflexivity| |];
    intros e [_ He]%list_elem_of_filter; by apply converted_proto_own.
Qed.
End SummaryPrototypeFacts.

(** ** Binary64 arithmetic *)

(** Facts of IEEE 754 arithmetic, from the specification of the
    primitive floats. *)
Section Binary64.
Import SpecFloat FloatOps.
Local Open Scope Z_scope.

Lemma bounded_canonical m e :
  bounded prec emax m e = true →
  fexp prec emax (Z.pos (digits2_pos m) + e) = e ∧ e <= emax - prec.
Proof.
  unfold bounded, canonical_mantissa. intros [H1 H2]%andb_true_iff.
  apply Z.eqb_eq in H1. apply Z.leb_le in H2. auto.
Qed.

Lemma iter_pos_iter {A} (f : A → A) n x : iter_pos f n x = Pos.iter f x n.
Proof.
  revert x. induction n as [n IH|n IH|]; intros x; simpl; [|by rewrite !IH|done].
  rewrite !IH, <- !Pos.iter_swap. reflexivity.
Qed.

Lemma digits2_pos_shift (m n : positive) :
  Z.pos (digits2_pos (Pos.iter xO m n)) = Z.pos (digits2_pos m) + Z.pos n.
Proof.
  induction n as [|n IH] using Pos.peano_ind.
  - simpl. lia.
  - rewrite Pos.iter_succ. simpl digits2_pos. rewrite Pos2Z.inj_succ. lia.
Qed.

Lemma shr_1_shift (m n : positive) :
  iter_pos shr_1 n (Build_shr_record (Z.pos (Pos.iter xO m n)) false false)
  = Build_shr_record (Z.pos m) false false.
Proof.
  rewrite iter_pos_iter. induction n as [|n IH] using Pos.peano_ind.
  - reflexivity.
  - rewrite Pos.iter_succ_r, Pos.iter_succ. exact IH.
Qed.

(** Rounding a canonical mantissa leaves it as it is. *)
Lemma binary_round_aux_canonical s m e :
  bounded prec emax m e = true →
  binary_round_aux prec emax s (Z.pos m) e loc_Exact = S754_finite s m e.
Proof.
  intros [Hc He]%bounded_canonical. unfold binary_round_aux, shr_fexp.
  cbn [Zdigits2 shr_record_of_loc]. rewrite Hc, Z.sub_diag.
  cbn [shr shr_m loc_of_shr_record round_nearest_even Zdigits2 shr_record_of_loc].
  rewrite Hc, Z.sub_diag. cbn [shr shr_m].
  apply Z.leb_le in He. rewrite He. reflexivity.
Qed.

(** So does rounding it after a shift to the left. *)
Lemma binary_round_aux_shifted s m e n :
  bounded prec emax m e = true →
  binary_round_aux prec emax s (Z.pos (Pos.iter xO m n)) (e - Z.pos n) loc_Exact
  = S754_finite s m e.
Proof.
  intros [Hc He]%bounded_canonical.
  unfold binary_round_aux, shr_fexp.
  cbn [Zdigits2 shr_record_of_loc]. rewrite digits2_pos_shift.
  replace (Z.pos (digits2_pos m) + Z.pos n + (e - Z.pos n))
    with (Z.pos (digits2_pos m) + e) by lia.
  rewrite Hc. replace (e - (e - Z.pos n)) with (Z.pos n) by lia.
  cbn [shr]. rewrite shr_1_shift.
  replace (e - Z.pos n + Z.pos n) with e by lia.
  cbn [shr shr_m loc_of_shr_record round_nearest_even Zdigits2 shr_record_of_loc].
  rewrite Hc, Z.sub_diag. cbn [shr shr_m].
  apply Z.leb_le in He. rewrite He. reflexivity.
Qed.

Lemma SFmul_one x :
  SpecFloat.valid_binary prec emax x = true → SF64mul x (Prim2SF 1) = x.
Proof.
  change (Prim2SF 1) with (S754_finite false 4503599627370496 (-52)).
  destruct x as [[|] | [|] | | s m e]; try reflexivity.
  intros Hb. cbn [SpecFloat.valid_binary] in Hb.
  unfold SF64mul, SFmul. rewrite xorb_false_r, Pos.mul_comm.
  change (4503599627370496 * m)%positive with (Pos.iter xO m 52).
  change (e + -52) with (e - 52).
  by apply binary_round_aux_shifted.
Qed.

Lemma div_eucl_shift (m n : positive) :
  Z.div_eucl (Z.shiftl (Z.pos m) (Z.pos n)) (Z.pos (Pos.iter xO 1%positive n))
  = (Z.pos m, 0).
Proof.
  rewrite Z.shiftl_mul_pow2 by lia.
  assert (Z.pos (Pos.iter xO 1%positive n) = 2 ^ Z.pos n) as ->.
  { induction n as [|n IH] using Pos.peano_ind; [reflexivity|].
    rewrite Pos.iter_succ, Pos2Z.inj_succ, Z.pow_succ_r by lia.
    rewrite <- IH. reflexivity. }
  pose proof (Z.pow_pos_nonneg 2 (Z.pos n) ltac:(lia) ltac:(lia)) as Hpos.
  pose proof (Z_div_mod (Z.pos m * 2 ^ Z.pos n) (2 ^ Z.pos n) ltac:(lia)) as Hdm.
  destruct (Z.div_eucl _ _) as [q r]. destruct Hdm as [Heq Hr].
  assert (q = Z.pos m) by nia. subst q. f_equal. lia.
Qed.

Lemma SFdiv_one x :
  SpecFloat.valid_binary prec emax x = true → SF64div x (Prim2SF 1) = x.
Proof.
  change (Prim2SF 1) with (S754_finite false 4503599627370496 (-52)).
  destruct x as [[|] | [|] | | s m e]; try reflexivity.
  intros Hb. cbn [SpecFloat.valid_binary] in Hb.
  pose proof (bounded_canonical m e Hb) as [Hc He].
  unfold SF64div, SFdiv. rewrite xorb_false_r.
  unfold SFdiv_core_binary.
  change (Zdigits2 4503599627370496) with 53. cbn [Zdigits2].
  set (e' := Z.min _ _).
  assert (e' = e ∨ e' = e - 1 ∧ Z.pos (digits2_pos m) = 53) as [He'|[He' Hd]].
  { subst e'. revert Hc. unfold fexp, SpecFloat.emin, prec, emax. lia. }
  - rewrite He'. replace (e - -52 - e) with 52 by lia.
    change 4503599627370496 with (Z.pos (Pos.iter xO 1%positive 52)).
    rewrite div_eucl_shift.
    change (new_location _ 0) with loc_Exact.
    by apply binary_round_aux_canonical.
  - rewrite He'. replace (e - -52 - (e - 1)) with 53 by lia.
    change 4503599627370496 with (Z.pos (Pos.iter xO 1%positive 52)).
    change (Z.pos m ≪ 53) with (Z.pos m~0 ≪ 52).
    rewrite div_eucl_shift.
    change (new_location _ 0) with loc_Exact.
    change (m~0)%positive with (Pos.iter xO m 1).
    by apply binary_round_aux_shifted.
Qed.

Lemma binary64_mul_one (x : float) : (x * 1)%float = x.
Proof.
  rewrite <- (FloatAxioms.SF2Prim_Prim2SF (x * 1)), FloatAxioms.mul_spec.
  rewrite SFmul_one by apply FloatAxioms.Prim2SF_valid.
  apply FloatAxioms.SF2Prim_Prim2SF.
Qed.

Lemma binary64_div_one (x : float) : (x / 1)%float = x.
Proof.
  rewrite <- (FloatAxioms.SF2Prim_Prim2SF (x / 1)), FloatAxioms.div_spec.
  rewrite SFdiv_one by apply FloatAxioms.Prim2SF_valid.
  apply FloatAxioms.SF2Prim_Prim2SF.
Qed.
End Binary64.

(** Signs of quotients, products and sums. *)
Section Binary64Signs.
Import SpecFloat FloatOps.
Local Open Scope Z_scope.

Lemma shr_1_nonneg r : 0 <= shr_m r → 0 <= shr_m (shr_1 r).
Proof. destruct r as [[|[p|p|]|p] r s]; simpl; lia. Qed.

Lemma shr_nonneg r e n : 0 <= shr_m r → 0 <= shr_m (shr r e n).1.
Proof.
  intros Hr. destruct n as [|n|n]; simpl; try done.
  rewrite iter_pos_iter. apply Pos.iter_invariant; [|done].
  intros x. apply shr_1_nonneg.
Qed.

Lemma shr_fexp_nonneg m e l : 0 <= m → 0 <= shr_m (shr_fexp prec emax m e l).1.
Proof.
  intros Hm. unfold shr_fexp. apply shr_nonneg. by destruct l as [|[]].
Qed.

Lemma round_nearest_even_nonneg m l : 0 <= m → 0 <= round_nearest_even m l.
Proof.
  intros Hm. destruct l as [|[]]; simpl; try lia. destruct (Z.even m); lia.
Qed.

Lemma binary_round_aux_nonneg m e l :
  0 <= m → SFnonneg (binary_round_aux prec emax false m e l) = true.
Proof.
  intros Hm. unfold binary_round_aux.
  pose proof (shr_fexp_nonneg m e l Hm) as H1.
  destruct (shr_fexp prec emax m e l) as [mrs' e'] eqn:E1. simpl in H1.
  pose proof (shr_fexp_nonneg _ e' loc_Exact
                (round_nearest_even_nonneg _ (loc_of_shr_record mrs') H1)) as H2.
  destruct (shr_fexp prec emax (round_nearest_even _ _) e' loc_Exact) as [mrs'' e''].
  simpl in H2. destruct (shr_m mrs'') as [|p|p]; [done| |lia].
  by destruct (e'' <=? emax - prec).
Qed.

Lemma binary_round_nonneg m e :
  SFnonneg (binary_round prec emax false m e) = true.
Proof.
  unfold binary_round. destruct (shl_align _ _ _) as [mz ez].
  by apply binary_round_aux_nonneg.
Qed.

Lemma SFmul_nonneg x r :
  SFnonneg x = true → SFpositive_finite r = true →
  SFnonneg (SF64mul x r) = true.
Proof.
  destruct r as [| | |[|] mr er]; try done. intros Hx _.
  destruct x as [sx|[|]| |[|] mx ex]; try done.
  unfold SF64mul, SFmul. cbn [xorb]. by apply binary_round_aux_nonneg.
Qed.

Lemma SFdiv_nonneg x r :
  SFnonneg x = true → SFpositive_finite r = true →
  SFnonneg (SF64div x r) = true.
Proof.
  destruct r as [| | |[|] mr er]; try done. intros Hx _.
  destruct x as [sx|[|]| |[|] mx ex]; try done.
  unfold SF64div, SFdiv. cbn [xorb].
  unfold SFdiv_core_binary.
  set (m' := match _ with 0 => Z.pos mx | Z.pos _ => _ | Z.neg _ => 0 end).
  assert (0 <= m') as Hm'.
  { subst m'. destruct (_ - _ - _) as [|s|s]; [lia| |lia].
    apply Z.shiftl_nonneg. lia. }
  pose proof (Z_div_mod m' (Z.pos mr) ltac:(lia)) as Hdm.
  destruct (Z.div_eucl m' (Z.pos mr)) as [q r]. destruct Hdm as [Heq Hr].
  apply binary_round_aux_nonneg. nia.
Qed.

Lemma SFadd_nonneg x y :
  SFnonneg x = true → SFnonneg y = true → SFnonneg (SF64add x y) = true.
Proof.
  destruct x as [[|]|[|]| |[|] mx ex], y as [[|]|[|]| |[|] my ey]; try done.
  intros _ _. unfold SF64add, SFadd, binary_normalize. cbn [cond_Zopp].
  destruct (Z.pos _ + Z.pos _) as [|m|m] eqn:Hsum; [done| |lia].
  apply binary_round_nonneg.
Qed.
End Binary64Signs.

(** The sign of a difference. *)
Section Binary64Sub.
Import SpecFloat FloatOps.
Local Open Scope Z_scope.

Lemma digits2_pos_bounds (m : positive) :
  2 ^ (Z.pos (digits2_pos m) - 1) <= Z.pos m < 2 ^ Z.pos (digits2_pos m).
Proof.
  induction m as [m IH|m IH|]; [| |simpl; lia];
    cbn [digits2_pos]; rewrite Pos2Z.inj_succ;
    replace (Z.succ (Z.pos (digits2_pos m)) - 1)
      with (Z.succ (Z.pos (digits2_pos m) - 1)) by lia;
    rewrite !Z.pow_succ_r by lia; lia.
Qed.

Lemma digits2_pos_lt (a b : positive) :
  Z.pos (digits2_pos a) < Z.pos (digits2_pos b) → Z.pos a < Z.pos b.
Proof.
  intros Hd. pose proof (digits2_pos_bounds a) as [_ Ha].
  pose proof (digits2_pos_bounds b) as [Hb _].
  eapply Z.lt_le_trans; [exact Ha|]. etrans; [|exact Hb].
  apply Z.pow_le_mono_r; lia.
Qed.

Lemma shr_1_half r k : 0 <= k → 2 * k <= shr_m r → k <= shr_m (shr_1 r).
Proof. destruct r as [[|[p|p|]|p] r s]; simpl; lia. Qed.

Lemma iter_shr_1_lower n : ∀ r k,
  0 <= k → 2 ^ Z.pos n * k <= shr_m r → k <= shr_m (Pos.iter shr_1 r n).
Proof.
  induction n as [|n IH] using Pos.peano_ind; intros r k Hk Hr.
  - apply shr_1_half; [done|]. simpl in Hr. lia.
  - rewrite Pos.iter_succ_r. apply IH; [done|]. apply shr_1_half; [nia|].
    rewrite Pos2Z.inj_succ, Z.pow_succ_r in Hr by lia. lia.
Qed.

Lemma shr_fexp_pos m e l :
  1 <= m → emin <= e →
  1 <= shr_m (shr_fexp prec emax m e l).1 ∧ emin <= (shr_fexp prec emax m e l).2.
Proof.
  intros Hm He. unfold shr_fexp.
  assert (shr_m (shr_record_of_loc m l) = m) as Hrec by (by destruct l as [|[]]).
  destruct m as [|q|q]; [lia| |lia]. cbn [Zdigits2].
  destruct (fexp prec emax (Z.pos (digits2_pos q) + e) - e) as [|n|n] eqn:Hn; simpl;
    rewrite ?Hrec; try (split; lia).
  split; [|lia]. rewrite iter_pos_iter. apply iter_shr_1_lower; [lia|].
  rewrite Hrec, Z.mul_1_r.
  pose proof (digits2_pos_bounds q) as [Hq _].
  etrans; [|exact Hq]. apply Z.pow_le_mono_r; [lia|].
  revert Hn He. unfold fexp, SpecFloat.emin, prec, emax. lia.
Qed.

Lemma round_nearest_even_ge m l : m <= round_nearest_even m l.
Proof. destruct l as [|[]]; simpl; try lia. destruct (Z.even m); lia. Qed.

Lemma binary_round_aux_sign s m e l :
  1 <= m → emin <= e →
  SFsign (binary_round_aux prec emax s m e l) = if s then Lt else Gt.
Proof.
  intros Hm He. unfold binary_round_aux.
  pose proof (shr_fexp_pos m e l Hm He) as [H1 He1].
  destruct (shr_fexp prec emax m e l) as [mrs' e']. simpl in H1, He1.
  pose proof (round_nearest_even_ge (shr_m mrs') (loc_of_shr_record mrs')) as Hr.
  pose proof (shr_fexp_pos (round_nearest_even (shr_m mrs') (loc_of_shr_record mrs'))
                e' loc_Exact ltac:(lia) He1) as [H2 _].
  destruct (shr_fexp prec emax (round_nearest_even _ _) e' loc_Exact) as [mrs'' e''].
  simpl in H2. destruct (shr_m mrs'') as [|p|p]; [lia| |lia].
  by destruct (e'' <=? emax - prec).
Qed.

Lemma binary_round_sign s m e :
  emin <= e → SFsign (binary_round prec emax s m e) = if s then Lt else Gt.
Proof.
  intros He. unfold binary_round, shl_align.
  destruct (fexp prec emax (Z.pos (digits2_pos m) + e) - e) as [|n|n] eqn:Hn;
    apply binary_round_aux_sign; try lia.
  unfold fexp, SpecFloat.emin, prec, emax. lia.
Qed.

Lemma binary_normalize_sign z e :
  emin <= e → SFsign (binary_normalize prec emax z e false) = (z ?= 0).
Proof.
  intros He. destruct z as [|m|m]; [done| |]; simpl;
    by rewrite binary_round_sign.
Qed.

Lemma bounded_emin m e : bounded prec emax m e = true → emin <= e.
Proof.
  intros [Hc _]%bounded_canonical. revert Hc.
  unfold fexp, SpecFloat.emin, prec, emax. lia.
Qed.

(** With exponents brought to the smaller of the two, canonical mantissas
    compare as the numbers do: by exponent first. *)
Lemma aligned_compare m1 e1 m2 e2 :
  bounded prec emax m1 e1 = true →
  bounded prec emax m2 e2 = true →
  (Z.pos (shl_align m1 e1 (Z.min e1 e2)).1 ?= Z.pos (shl_align m2 e2 (Z.min e1 e2)).1)
  = match e1 ?= e2 with
    | Lt => Lt
    | Gt => Gt
    | Eq => Pos.compare_cont Eq m1 m2
    end.
Proof.
  intros [Hc1 _]%bounded_canonical [Hc2 _]%bounded_canonical.
  unfold shl_align. destruct (Z.compare_spec e1 e2) as [->|Hlt|Hgt].
  - rewrite Z.min_id, Z.sub_diag. reflexivity.
  - rewrite Z.min_l, Z.sub_diag by lia.
    destruct (e1 - e2) as [|d|d] eqn:Hd; [lia|lia|]. cbn [fst].
    apply Z.compare_lt_iff, digits2_pos_lt. rewrite digits2_pos_shift.
    revert Hc1 Hc2. unfold fexp, SpecFloat.emin, prec, emax. lia.
  - rewrite Z.min_r, Z.sub_diag by lia.
    destruct (e2 - e1) as [|d|d] eqn:Hd; [lia|lia|]. cbn [fst].
    apply Z.compare_gt_iff, digits2_pos_lt. rewrite digits2_pos_shift.
    revert Hc1 Hc2. unfold fexp, SpecFloat.emin, prec, emax. lia.
Qed.

(** The sign of a difference is the comparison of its operands. *)
Lemma SFsub_sign x y :
  SpecFloat.valid_binary prec emax x = true →
  SpecFloat.valid_binary prec emax y = true →
  SFsign (SF64sub x y)
  = match SFcompare x y with Some c => c | None => Eq end.
Proof.
  destruct x as [[|]|[|]| |s1 m1 e1], y as [[|]|[|]| |s2 m2 e2];
    try reflexivity; try (by destruct s1); try (by destruct s2).
  cbn [SpecFloat.valid_binary]. intros Hb1 Hb2.
  unfold SF64sub, SFsub.
  rewrite binary_normalize_sign
    by (pose proof (bounded_emin _ _ Hb1); pose proof (bounded_emin _ _ Hb2); lia).
  rewrite <- Z.compare_sub.
  destruct s1, s2; cbn [cond_Zopp SFcompare]; try reflexivity.
  - rewrite Z.compare_opp. etrans; [apply Z.compare_antisym|].
    rewrite aligned_compare by done. by destruct (e1 ?= e2).
  - by apply aligned_compare.
Qed.

Lemma SFcompare_antisym x y :
  SFcompare y x = option_map CompOpp (SFcompare x y).
Proof.
  destruct x as [[|]|[|]| |s1 m1 e1], y as [[|]|[|]| |s2 m2 e2];
    try reflexivity; try (by destruct s1); try (by destruct s2).
  cbn [SFcompare option_map]. f_equal.
  rewrite (Z.compare_antisym e1 e2).
  destruct s1, s2; try reflexivity; destruct (e1 ?= e2); cbn [CompOpp];
    try reflexivity; by rewrite !Pos.compare_cont_antisym.
Qed.

Lemma SFltb_zero_r z :
  SFltb z (S754_zero false) = match SFsign z with Lt => true | _ => false end.
Proof. by destruct z as [[|]|[|]| |[|] m e]. Qed.

Lemma SFltb_zero_l z :
  SFltb (S754_zero false) z = match SFsign z with Gt => true | _ => false end.
Proof. by destruct z as [[|]|[|]| |[|] m e]. Qed.

(** A difference is below zero exactly when the first operand is below
    the second, and above zero exactly when it is above: subtraction
    neither overflows to the wrong side nor underflows to zero. *)
Lemma binary64_sub_ltb_zero (x y : float) : (x - y <? 0)%float = (x <? y)%float.
Proof.
  rewrite !FloatAxioms.ltb_spec, FloatAxioms.sub_spec.
  change (Prim2SF 0) with (S754_zero false).
  rewrite SFltb_zero_r, SFsub_sign by apply FloatAxioms.Prim2SF_valid.
  unfold SFltb. by destruct (SFcompare _ _) as [[]|].
Qed.

Lemma binary64_zero_ltb_sub (x y : float) : (0 <? x - y)%float = (y <? x)%float.
Proof.
  rewrite !FloatAxioms.ltb_spec, FloatAxioms.sub_spec.
  change (Prim2SF 0) with (S754_zero false).
  rewrite SFltb_zero_l, SFsub_sign by apply FloatAxioms.Prim2SF_valid.
  unfold SFltb. rewrite (SFcompare_antisym (Prim2SF x) (Prim2SF y)).
  by destruct (SFcompare _ _) as [[]|].
Qed.
End Binary64Sub.

(** ** After a failed request for rates *)

Section Fallback.
Context {N : Type} `{JSNumber N} `{JSNumberOne N}.
Hypothesis num_div_one : ∀ x : N, num_div x num_one = x.
Hypothesis num_mul_one : ∀ x : N, num_mul x num_one = x.

(** With the table of the failure case every conversion on own entries
    returns the amount it was given, in a number model where dividing and
    multiplying by one change nothing. *)
Lemma convertCurrency_fallback (x : N) (s t : string) :
  convertCurrency fallbackRates x s t = x.
Proof.
  destruct (convertCurrency_noop_or_convertible (fallbackRates (N:=N)) s t)
    as [Hnoop|(Hne & Hs & Ht)]; [apply Hnoop|].
  rewrite convertCurrency_convertible by done. cbn zeta.
  assert (∀ c, c ≠ "USD" → convertible (fallbackRates (N:=N)) c →
               to_number (fallbackRates (N:=N) !! c) = num_one) as Hone.
  { intros c Hc [->|(r & Hr & _)]; [done|]. rewrite Hr.
    rewrite fallbackRates_lookup in Hr. destruct (decide (c ∈ _)); [|done].
    by injection Hr as <-. }
  destruct (decide (s = "USD")); destruct (decide (t = "USD"));
    rewrite ?Hone by done; by rewrite ?num_div_one, ?num_mul_one.
Qed.
End Fallback.

(** X5: when the request for rates has failed, every conversion between
    currencies that are not names of members of [Object.prototype]
    returns, in binary64, the amount it was given (between listed
    currencies it divides and multiplies by one, which is exact; for any
    other currency it does nothing), and the summary of a state with such
    currencies is the plain sums of the amounts, as in the
    single-currency version. *)
Theorem failed_fetch_disables_conversion :
  (∀ (x : float) (s t : string),
      s ∉ Object_prototype →
      t ∉ Object_prototype →
      convertCurrency_proto fallbackRates x s t = x)
  ∧ (∀ st : State float,
      plain_currencies st →
      summary_proto (fetchExchangeRates FetchFailed st)
      = summary_single (entries st)).
Proof.
  assert (∀ (x : float) (s t : string),
             convertCurrency fallbackRates x s t = x) as Hown.
  { apply convertCurrency_fallback;
      [exact binary64_div_one | exact binary64_mul_one]. }
  split.
  - intros x s t Hs Ht. rewrite convertCurrency_proto_own by (by right). apply Hown.
  - intros st Hplain.
    rewrite (summary_proto_own (fetchExchangeRates FetchFailed st)) by exact Hplain.
    apply (summary_of_unconverted (fetchExchangeRates FetchFailed st)).
    intros e _. apply Hown.
Qed.

(** ** The totals are not negative *)

Lemma binary64_nonneg_spec (x : float) :
  (0 <=? x)%float = SFnonneg (Prim2SF x).
Proof.
  rewrite FloatAxioms.leb_spec. change (Prim2SF 0) with (S754_zero false).
  by destruct (Prim2SF x) as [[|]|[|]| |[|] m e].
Qed.

(** A truthy rate that is neither below zero nor infinite is a positive
    number. *)
Lemma binary64_rate_spec (r : float) :
  truthy r = true →
  (0 <=? r)%float = true →
  (r <? infinity)%float = true →
  SFpositive_finite (Prim2SF r) = true.
Proof.
  unfold truthy. cbn [num_eqb num_is_nan num_zero binary64]. unfold PrimFloat.is_nan.
  rewrite !FloatAxioms.eqb_spec, FloatAxioms.leb_spec, FloatAxioms.ltb_spec.
  change (Prim2SF 0) with (S754_zero false).
  change (Prim2SF infinity) with (S754_infinity false).
  by destruct (Prim2SF r) as [[|]|[|]| |[|] m e].
Qed.

Lemma binary64_div_nonneg (x r : float) :
  (0 <=? x)%float = true →
  SFpositive_finite (Prim2SF r) = true →
  (0 <=? x / r)%float = true.
Proof.
  rewrite !binary64_nonneg_spec, FloatAxioms.div_spec. apply SFdiv_nonneg.
Qed.

Lemma binary64_mul_nonneg (x r : float) :
  (0 <=? x)%float = true →
  SFpositive_finite (Prim2SF r) = true →
  (0 <=? x * r)%float = true.
Proof.
  rewrite !binary64_nonneg_spec, FloatAxioms.mul_spec. apply SFmul_nonneg.
Qed.

Lemma binary64_add_nonneg (x y : float) :
  (0 <=? x)%float = true →
  (0 <=? y)%float = true →
  (0 <=? x + y)%float = true.
Proof.
  rewrite !binary64_nonneg_spec, FloatAxioms.add_spec. apply SFadd_nonneg.
Qed.

Lemma convertCurrency_nonneg (rates : gmap string float) (a : float) (s t : string) :
  rates_nonneg_finite rates →
  (0 <=? a)%float = true →
  (0 <=? convertCurrency rates a s t)%float = true.
Proof.
  intros Hrates Ha.
  destruct (convertCurrency_noop_or_convertible rates s t) as [Hnoop|(Hne & Hs & Ht)].
  { by rewrite Hnoop. }
  rewrite convertCurrency_convertible by done. cbn zeta.
  assert (∀ c, c ≠ "USD" → convertible rates c →
               SFpositive_finite (Prim2SF (to_number (rates !! c))) = true) as Hpos.
  { intros c Hc [->|(r & Hr & Htr)]; [done|]. rewrite Hr. cbn [to_number].
    destruct (Hrates c r Hr). by apply binary64_rate_spec. }
  destruct (decide (s = "USD")); destruct (decide (t = "USD")); try done.
  - apply binary64_mul_nonneg; auto.
  - apply binary64_div_nonneg; auto.
  - apply binary64_mul_nonneg; [apply binary64_div_nonneg|]; auto.
Qed.

Lemma fold_add_nonneg {A : Type} (f : A → float) (l : list A) (z : float) :
  (∀ a, a ∈ l → (0 <=? f a)%float = true) →
  (0 <=? z)%float = true →
  (0 <=? fold_left (λ sum a, num_add sum (f a)) l z)%float = true.
Proof.
  revert z. induction l as [|a l IH]; intros z Hf Hz; [done|].
  cbn [fold_left]. apply IH; [intros a' Ha'; apply Hf; by right|].
  apply binary64_add_nonneg; [done|]. apply Hf. by left.
Qed.

(** X24: in binary64, when no currency of the state is the name of a
    member of [Object.prototype], every entry has an amount that is at
    least zero, and every rate in the table is at least zero and not
    infinite, the total income and the total of expenses are numbers at
    least zero (possibly infinite, never NaN). *)
Theorem totals_not_negative (st : State float) :
  plain_currencies st →
  (∀ e, e ∈ entries st → (0 <=? entry_amount e)%float = true) →
  rates_nonneg_finite (exchangeRates st) →
  (0 <=? totalIncome (summary_proto st))%float = true
  ∧ (0 <=? totalExpenses (summary_proto st))%float = true.
Proof.
  intros Hplain Hamounts Hrates. rewrite (summary_proto_own st Hplain).
  assert (∀ P `{∀ e, Decision (P e)},
            (0 <=? fold_left (λ sum e, num_add sum (converted st e))
                     (filter P (entries st)) 0)%float = true) as Htotal.
  { intros P HP. apply fold_add_nonneg; [|done].
    intros e [_ He]%list_elem_of_filter. unfold converted.
    apply convertCurrency_nonneg; [done|]. by apply Hamounts. }
  split; apply Htotal.
Qed.

(** ** The colour of the balance *)

(** X20: in binary64, for a summary whose balance is the total income
    minus the total of expenses, as [summary] computes it, the class of
    the balance is the red one exactly when the total income is below the
    total of expenses, the green one exactly when it is above, and the
    blue one otherwise (the two are equal, or one of them is NaN). *)
Theorem balanceColor_compares (s : Summary float) :
  balance s = (totalIncome s - totalExpenses s)%float →
  balanceColor s
  = if (totalIncome s <? totalExpenses s)%float
    then "text-red-500 dark:text-red-400"
    else if (totalExpenses s <? totalIncome s)%float
    then "text-green-500 dark:text-green-400"
    else "text-blue-500 dark:text-blue-400".
Proof.
  intros Hbalance. unfold balanceColor. rewrite Hbalance.
  cbn [num_ltb num_zero binary64].
  by rewrite binary64_sub_ltb_zero, binary64_zero_ltb_sub.
Qed.

(** ** The further theorems at concrete inputs *)

Lemma handleSubmit_create_appends_witness :
  entries (handleSubmit parseInteger 3 "2024-01-03T00:00:00.000Z" state_creating)
  = entries state_creating ++
      [mkEntry 3 "expense" "Rent" 750%float "bills" (Some "EUR")
         "2024-01-03T00:00:00.000Z"].
Proof.
  apply (handleSubmit_create_appends parseInteger 3 "2024-01-03T00:00:00.000Z"
           state_creating).
  - reflexivity.
  - vm_compute; reflexivity.
  - vm_compute; reflexivity.
  - vm_compute; discriminate.
  - discriminate.
Defined.

Lemma handleSubmit_after_deleting_edited_witness :
  entries (handleSubmit parseInteger 3 "2024-01-03T00:00:00.000Z"
             (handleDeleteEntry true 2 state_editing))
  = entries (handleDeleteEntry true 2 state_editing).
Proof.
  apply (handleSubmit_after_deleting_edited parseInteger 3
           "2024-01-03T00:00:00.000Z" state_editing 2).
  - reflexivity.
  - vm_compute; reflexivity.
  - vm_compute; reflexivity.
  - vm_compute; discriminate.
  - discriminate.
Defined.

Lemma unique_ids_preserved_witness :
  NoDup (entry_ids (perform parseInteger wholeToString
                      (Submit 3 "2024-01-03T00:00:00.000Z") state_creating)).
Proof.
  apply unique_ids_preserved.
  - apply (bool_decide_unpack _). vm_compute. exact I.
  - intros now iso [= <- <-] _. apply (bool_decide_unpack _). vm_compute. exact I.
Defined.

Lemma create_then_delete_witness :
  entries (handleDeleteEntry true 3
             (handleSubmit parseInteger 3 "2024-01-03T00:00:00.000Z" state_creating))
  = entries state_creating.
Proof.
  apply create_then_delete.
  - reflexivity.
  - apply (bool_decide_unpack _). vm_compute. exact I.
  - vm_compute; reflexivity.
  - vm_compute; reflexivity.
  - vm_compute; discriminate.
  - discriminate.
Defined.

Lemma edit_then_submit_unchanged_witness :
  entries (handleSubmit parseInteger 3 "2024-01-03T00:00:00.000Z"
             (syncFormCurrency (handleEditEntry wholeToString 2 state_example)))
  = entries state_example.
Proof.
  apply (edit_then_submit_unchanged parseInteger wholeToString 3
           "2024-01-03T00:00:00.000Z" state_example
           (mkEntry 2 "expense" "Groceries" 200%float "food" (Some "EUR")
              "2024-01-02T00:00:00.000Z")).
  - apply (bool_decide_unpack _). vm_compute. exact I.
  - right. left.
  - discriminate.
  - vm_compute; reflexivity.
  - vm_compute; reflexivity.
  - vm_compute; reflexivity.
  - vm_compute; reflexivity.
  - discriminate.
  - discriminate.
  - exists "EUR". split; [reflexivity | discriminate].
Defined.

(** With the id zero the effect overwrites the currency field of the
    form, and the submission moves the entry to the display currency. *)
Example edit_then_submit_zero_id :
  entries (handleSubmit parseInteger 3 "2024-01-03T00:00:00.000Z"
             (syncFormCurrency (handleEditEntry wholeToString 0 state_zero_id)))
  = [ mkEntry 0 "expense" "Groceries" 200%float "food" (Some "USD")
        "1970-01-01T00:00:00.000Z" ].
Proof. vm_compute. reflexivity. Qed.

Lemma editing_valid_preserved_witness :
  editing_valid (perform parseInteger wholeToString (Delete true 1) state_editing).
Proof.
  apply editing_valid_preserved.
  - intros id [= <-]. apply (bool_decide_unpack _). vm_compute. exact I.
  - intros id [= <-]. discriminate.
Defined.

Lemma failed_fetch_disables_conversion_witness :
  convertCurrency_proto fallbackRates 200%float "EUR" "INR" = 200%float.
Proof.
  apply (proj1 failed_fetch_disables_conversion);
    apply (bool_decide_unpack _); vm_compute; exact I.
Defined.

Lemma state_example_plain : plain_currencies state_example.
Proof.
  split; [apply USD_not_inherited|]. intros e He. simpl in He.
  repeat (apply elem_of_cons in He as [->|He]);
    try (apply (bool_decide_unpack _); vm_compute; exact I).
  by apply elem_of_nil in He.
Defined.

Lemma totals_not_negative_witness :
  (0 <=? totalIncome (summary_proto state_example))%float = true
  ∧ (0 <=? totalExpenses (summary_proto state_example))%float = true.
Proof.
  apply totals_not_negative.
  - exact state_example_plain.
  - intros e He. simpl in He.
    repeat (apply elem_of_cons in He as [->|He]); try (vm_compute; reflexivity).
    by apply elem_of_nil in He.
  - intros c r Hc. unfold state_example, rates_example in Hc. simpl in Hc.
    apply lookup_insert_Some in Hc as [[_ <-]|[_ Hc]]; [by vm_compute|].
    apply lookup_insert_Some in Hc as [[_ <-]|[_ Hc]]; [by vm_compute|].
    by rewrite lookup_empty in Hc.
Defined.

Lemma balanceColor_compares_witness :
  balanceColor (summary_proto state_example) = "text-green-500 dark:text-green-400".
Proof.
  rewrite (balanceColor_compares (summary_proto state_example)); [|reflexivity].
  vm_compute. reflexivity.
Defined.
